(** * Disaster_Response: cache, audit trail and proximity search

    A shallow embedding of the parts of the disaster-coordination server
    that carry its invariants:

    - [CacheService] (services/cacheService.js): the TTL cache kept in
      the [cache] table;
    - the [/disasters] routes (routes/disasters.js): creation and update
      of a disaster record together with its [audit_trail];
    - [find_nearby_resources] (the plpgsql function of the migration)
      and the route [GET /disasters/:id/resources] that calls it.

    Conventions.  An [async] function is a state transformer over
    [World]; a JavaScript exception is the [Thrown] completion; every
    call to the hosted database goes through one of the [Supabase]
    operations, which consults the next entry of [faults] to decide
    whether the call is answered normally, answered with an error
    object, or rejected.  Instants are milliseconds since the epoch
    (the time value of a JavaScript [Date]).  Double precision numbers
    are idealised as real numbers, and a [string] stands for a text
    the database can hold. *)

From Stdlib Require Import ZArith List String Bool Lia.
From Stdlib Require Import Ascii.
From Stdlib Require Import Reals Lra.
From Stdlib Require Import Sorting.Sorted Sorting.Permutation.
From stdpp Require Import gmap strings pretty.

Local Open Scope string_scope.
Local Open Scope Z_scope.
Local Set Warnings "-register-all".

(** ** JavaScript values and completions *)

(** The JSON payloads that travel through the cache and the audit
    trail.  [JNull] is also what a JavaScript [return null] yields. *)
Inductive Json :=
| JNull
| JBool (b : bool)
| JNum (n : Z)
| JStr (s : string)
| JArr (items : list Json)
| JObj (fields : list (string * Json)).

Inductive JsError :=
| PostgrestError (code : string)  (* the [error] object of a reply, rethrown *)
| FetchFailed                     (* the client promise rejected *)
| RangeError.                     (* [toISOString] of an invalid date *)

Inductive Completion (A : Type) :=
| Normal (a : A)
| Thrown (e : JsError).
Arguments Normal {A} a.
Arguments Thrown {A} e.

(** How the hosted database answers one call. *)
Inductive Fault :=
| NoFault
| ErrorReply (code : string)
| Rejected.

(** The [{ data, error }] pair every supabase call resolves to. *)
Record Reply (D : Type) := mkReply { data : option D; error : option string }.
Arguments mkReply {D} data error.
Arguments data {D} r.
Arguments error {D} r.

(** ** Rows *)

(** [cache (key text PRIMARY KEY, value jsonb NOT NULL,
    expires_at timestamptz NOT NULL)]; the key is the map key. *)
Record CacheRow := mkCacheRow { value : Json; expires_at : Z }.

Inductive Action := create | update.

Record Changes := mkChanges {
  c_title : option string;
  c_location_name : option string;
  c_description : option string;
  c_tags : option (list string) }.

Record AuditEntry := mkAuditEntry {
  action : Action;
  user_id : string;
  timestamp : Z;
  changes : Changes;
  severity_analysis : option Json }.

(** A point as the routes write it: [POINT(lon lat)]. *)
Record Point := mkPoint { lon : R; lat : R }.

Record Disaster := mkDisaster {
  d_id : string;
  title : string;
  location_name : option string;
  location : option Point;
  description : string;
  tags : list string;
  owner_id : string;
  audit_trail : list AuditEntry }.

Inductive ResourceType := shelter | food | medical | water | evacuation | other.
Inductive ResourceStatus := active | inactive | full.

Record Resource := mkResource {
  r_id : string;
  r_disaster_id : string;
  r_name : string;
  r_location_name : option string;
  r_location : option Point;
  r_type : ResourceType;
  r_capacity : option Z;
  r_contact : option string;
  r_status : option ResourceStatus }.

(** A row of the table [find_nearby_resources] returns. *)
Record NearbyRow := mkNearbyRow {
  n_resource : Resource;
  distance_meters : R }.

Record User := mkUser { u_id : string; role : string; u_name : string }.

(** What a handler sends back: [res.status(s).json(body)]. *)
Inductive ResponseBody :=
| error_body (message : string)
| disaster_body (d : option Disaster) (severity : option Json)
| resources_body (rows : list NearbyRow).

Record Response := mkResponse { status : Z; body : ResponseBody }.

Inductive Event :=
| disaster_created (d : option Disaster) (user : string) (severity : option Json)
| disaster_updated (d : option Disaster) (user : string) (severity : option Json).

(** ** The world an async function runs in *)

Record World := mkWorld {
  cache : gmap string CacheRow;
  disasters : gmap string Disaster;
  resources : list Resource;                 (* in scan order *)
  now : Z;                                   (* the clock, in ms *)
  faults : list Fault;                       (* answers of the next calls *)
  analyze : string -> list string -> Json;   (* the severity analyser *)
  uuids : nat -> string;                     (* the uuid generator *)
  uuid_count : nat;
  emitted : list Event;
  console : list string }.

Definition with_cache (c : gmap string CacheRow) (w : World) : World :=
  mkWorld c (disasters w) (resources w) (now w) (faults w) (analyze w)
          (uuids w) (uuid_count w) (emitted w) (console w).
Definition with_disasters (d : gmap string Disaster) (w : World) : World :=
  mkWorld (cache w) d (resources w) (now w) (faults w) (analyze w)
          (uuids w) (uuid_count w) (emitted w) (console w).
Definition with_resources (r : list Resource) (w : World) : World :=
  mkWorld (cache w) (disasters w) r (now w) (faults w) (analyze w)
          (uuids w) (uuid_count w) (emitted w) (console w).
Definition at_time (t : Z) (w : World) : World :=
  mkWorld (cache w) (disasters w) (resources w) t (faults w) (analyze w)
          (uuids w) (uuid_count w) (emitted w) (console w).
Definition with_faults (f : list Fault) (w : World) : World :=
  mkWorld (cache w) (disasters w) (resources w) (now w) f (analyze w)
          (uuids w) (uuid_count w) (emitted w) (console w).
Definition with_uuid_count (n : nat) (w : World) : World :=
  mkWorld (cache w) (disasters w) (resources w) (now w) (faults w) (analyze w)
          (uuids w) n (emitted w) (console w).
Definition with_emitted (e : list Event) (w : World) : World :=
  mkWorld (cache w) (disasters w) (resources w) (now w) (faults w) (analyze w)
          (uuids w) (uuid_count w) e (console w).
Definition with_console (c : list string) (w : World) : World :=
  mkWorld (cache w) (disasters w) (resources w) (now w) (faults w) (analyze w)
          (uuids w) (uuid_count w) (emitted w) c.

(** ** The monad of async functions *)

Definition M (A : Type) : Type := World -> Completion A * World.

Definition ret {A} (a : A) : M A := fun w => (Normal a, w).
Definition throw {A} (e : JsError) : M A := fun w => (Thrown e, w).
Definition bind {A B} (m : M A) (k : A -> M B) : M B :=
  fun w => match m w with
           | (Normal a, w') => k a w'
           | (Thrown e, w') => (Thrown e, w')
           end.
(** [try { body } catch (error) { handler }] *)
Definition try_catch {A} (body : M A) (handler : JsError -> M A) : M A :=
  fun w => match body w with
           | (Normal a, w') => (Normal a, w')
           | (Thrown e, w') => handler e w'
           end.

Notation "x <- m ;; k" := (bind m (fun x => k))
  (at level 20, m at level 99, k at level 200, only parsing).
Notation "m ;; k" := (bind m (fun _ => k))
  (at level 100, k at level 200, right associativity, only parsing).

Definition result {A} (r : Completion A * World) : Completion A := fst r.
Definition world_after {A} (r : Completion A * World) : World := snd r.

(** [new Date()] / [Date.now()] *)
Definition clock : M Z := fun w => (Normal (now w), w).

(** A [Date] holds a time value only within 8.64e15 ms of the epoch;
    [toISOString] throws a RangeError on any other. *)
Definition MAX_TIME : Z := 8640000000000000.
Definition toISOString (t : Z) : M Z :=
  if Z.abs t <=? MAX_TIME then ret t else throw RangeError.

(** [logger.error(message, error)]: a line on the console. *)
Definition logger_error (message : string) : M unit :=
  fun w => (Normal tt, with_console (console w ++ [message]) w).
Definition logger_info (message : string) : M unit :=
  fun w => (Normal tt, with_console (console w ++ [message]) w).
Definition logger_warn (message : string) : M unit :=
  fun w => (Normal tt, with_console (console w ++ [message]) w).
(** [logger.debug] prints in development only; the console of the
    model does not record it. *)
Definition logger_debug (message : string) : M unit := ret tt.

(** Truthiness of a string that may be [undefined], and [a || b]. *)
Definition truthy (s : option string) : bool :=
  match s with
  | Some s => negb (String.eqb s "")
  | None => false
  end.
Definition or_else (s : option string) (d : string) : string :=
  match s with
  | Some s => if String.eqb s "" then d else s
  | None => d
  end.
Definition or_else_opt (s d : option string) : option string :=
  if truthy s then s else d.
(** Truthiness of a number that may be [undefined]: zero is falsy. *)
Definition truthy_number (x : option R) : bool :=
  match x with
  | Some x => if Req_dec_T x 0 then false else true
  | None => false
  end.

(** [req.io.emit(event, payload)] *)
Definition io_emit (e : Event) : M unit :=
  fun w => (Normal tt, with_emitted (emitted w ++ [e]) w).

(** [uuidv4()] *)
Definition uuidv4 : M string :=
  fun w => (Normal (uuids w (uuid_count w)), with_uuid_count (S (uuid_count w)) w).

(** [if (error) throw error] *)
Definition throw_if_error {D} (r : Reply D) : M unit :=
  match error r with
  | Some code => throw (PostgrestError code)
  | None => ret tt
  end.

(** ** The hosted database, as the supabase client shows it *)

Module Supabase.

Definition next_fault : M Fault :=
  fun w => match faults w with
           | [] => (Normal NoFault, w)
           | f :: fs => (Normal f, with_faults fs w)
           end.

(** One call: a rejected promise throws, an error reply carries no
    data and leaves the tables alone, otherwise [run] is the
    statement itself. *)
Definition call {D} (run : M (Reply D)) : M (Reply D) :=
  f <- next_fault ;;
  match f with
  | Rejected => throw FetchFailed
  | ErrorReply code => ret (mkReply None (Some code))
  | NoFault => run
  end.

(** [.single()] on no row answers with the error code PGRST116. *)
Definition single {D} (row : option D) : Reply D :=
  match row with
  | Some d => mkReply (Some d) None
  | None => mkReply None (Some "PGRST116")
  end.

(** [from('cache').select('value, expires_at').eq('key', key).single()] *)
Definition cache_select_single (key : string) : M (Reply CacheRow) :=
  call (fun w => (Normal (single (cache w !! key)), w)).

(** What the columns of [cache] accept.  [expires_at timestamptz] is
    read from the text [toISOString] wrote: a year from 0000 to 9999
    is written with four digits, any other with a sign and six
    digits, which the store does not read as a timestamp (SQLSTATE
    22007); and the store has no year 0000 (22008).  So the instants
    it accepts run from 0001-01-01T00:00:00.000Z to
    9999-12-31T23:59:59.999Z. *)
Definition YEAR_0000 : Z := -62167219200000.
Definition FIRST_TIMESTAMP : Z := -62135596800000.
Definition LAST_TIMESTAMP : Z := 253402300799999.

(** [value jsonb NOT NULL]: a JavaScript [null] is sent as a JSON
    null and arrives as an SQL NULL (SQLSTATE 23502). *)
Definition is_null (j : Json) : bool :=
  match j with
  | JNull => true
  | _ => false
  end.

(** [from('cache').upsert({ key, value, expires_at })]: the row is
    written when the table accepts it, and refused with an error
    reply otherwise. *)
Definition cache_upsert (key : string) (row : CacheRow) : M (Reply unit) :=
  call (fun w =>
          if (expires_at row <? YEAR_0000) || (LAST_TIMESTAMP <? expires_at row)
          then (Normal (mkReply None (Some "22007")), w)
          else if expires_at row <? FIRST_TIMESTAMP
          then (Normal (mkReply None (Some "22008")), w)
          else if is_null (value row)
          then (Normal (mkReply None (Some "23502")), w)
          else (Normal (mkReply None None),
                with_cache (<[key := row]> (cache w)) w)).

(** [from('cache').delete().eq('key', key)] *)
Definition cache_delete_eq (key : string) : M (Reply unit) :=
  call (fun w => (Normal (mkReply None None),
                  with_cache (delete key (cache w)) w)).

(** [from('cache').delete().lt('expires_at', t)] *)
Definition cache_delete_lt (t : Z) : M (Reply unit) :=
  call (fun w => (Normal (mkReply None None),
                  with_cache (filter (fun kv => ~ (expires_at (snd kv) < t)) (cache w)) w)).

(** [from('disasters').select(...).eq('id', id).single()] *)
Definition disasters_select_single (id : string) : M (Reply Disaster) :=
  call (fun w => (Normal (single (disasters w !! id)), w)).

(** [from('disasters').insert(row).select().single()]; [id] is the
    primary key. *)
Definition disasters_insert (row : Disaster) : M (Reply Disaster) :=
  call (fun w =>
          match disasters w !! d_id row with
          | Some _ => (Normal (mkReply None (Some "23505")), w)
          | None => (Normal (mkReply (Some row) None),
                     with_disasters (<[d_id row := row]> (disasters w)) w)
          end).

(** [from('disasters').update({ title, location_name, location,
    description, tags, audit_trail }).eq('id', id).select().single()] *)
Definition disasters_update (id : string) (new_title : string)
    (new_location_name : option string) (new_location : option Point)
    (new_description : string) (new_tags : list string)
    (new_audit_trail : list AuditEntry) : M (Reply Disaster) :=
  call (fun w =>
          match disasters w !! id with
          | None => (Normal (single None), w)
          | Some old =>
              let row := mkDisaster (d_id old) new_title new_location_name
                           new_location new_description new_tags
                           (owner_id old) new_audit_trail in
              (Normal (mkReply (Some row) None),
               with_disasters (<[id := row]> (disasters w)) w)
          end).

End Supabase.

(** ** services/cacheService.js *)

Module CacheService.

(** [static async delete(key)] *)
Definition delete (key : string) : M unit :=
  try_catch
    (r <- Supabase.cache_delete_eq key ;;
     throw_if_error r)
    (fun _ => logger_error "Cache delete error:").

(** [static async get(key)] *)
Definition get (key : string) : M Json :=
  try_catch
    (r <- Supabase.cache_select_single key ;;
     match error r with
     | Some code =>
         if negb (String.eqb code "PGRST116")
         then throw (PostgrestError code) else ret tt
     | None => ret tt
     end ;;
     match data r with
     | None => ret JNull
     | Some row =>
         t <- clock ;;
         if expires_at row <? t
         then (delete key ;; ret JNull)
         else ret (value row)
     end)
    (fun _ => logger_error "Cache get error:" ;; ret JNull).

(** [static async set(key, value, ttlMinutes = 60)]; [None] is the
    omitted argument. *)
Definition set (key : string) (v : Json) (ttlMinutes : option Z) : M unit :=
  let ttlMinutes := default 60 ttlMinutes in
  try_catch
    (t <- clock ;;
     expiresAt <- toISOString (t + ttlMinutes * 60 * 1000) ;;
     r <- Supabase.cache_upsert key (mkCacheRow v expiresAt) ;;
     throw_if_error r ;;
     logger_debug "Cache set")
    (fun _ => logger_error "Cache set error:").

(** [export async function cleanExpiredCache()] *)
Definition cleanExpiredCache : M unit :=
  try_catch
    (t <- clock ;;
     iso <- toISOString t ;;
     r <- Supabase.cache_delete_lt iso ;;
     throw_if_error r ;;
     logger_info "Expired cache entries cleaned")
    (fun _ => logger_error "Cache cleanup error:").

End CacheService.

(** ** routes/disasters.js *)

Module Disasters.

(** The JSON body of POST and PUT; [None] is an absent field. *)
Record Body := mkBody {
  b_title : option string;
  b_location_name : option string;
  b_description : option string;
  b_tags : option (list string);
  b_latitude : option R;
  b_longitude : option R }.

(** The mock authentication middleware. *)
Definition authenticate : User :=
  mkUser "netrunnerX" "admin" "Emergency Coordinator".

(** [GeminiService.analyzeDisasterSeverity]: an external analyser,
    read through the oracle of the world.  The routes use what it
    returns and nothing else of it; its own traffic with the cache
    is left out of this model of the routes. *)
Definition analyzeDisasterSeverity (description : string) (tags : list string)
  : M Json :=
  fun w => (Normal (analyze w description tags), w).

Definition point_of (latitude longitude : option R) : option Point :=
  match latitude, longitude with
  | Some la, Some lo =>
      if truthy_number latitude && truthy_number longitude
      then Some (mkPoint lo la) else None
  | _, _ => None
  end.

(** [router.post('/disasters', authenticate, ...)] *)
Definition post (b : Body) : M Response :=
  let user := authenticate in
  try_catch
    (if negb (truthy (b_title b)) || negb (truthy (b_description b))
     then ret (mkResponse 400 (error_body "Title and description are required"))
     else
       disasterId <- uuidv4 ;;
       severityAnalysis <-
         try_catch
           (s <- analyzeDisasterSeverity (or_else (b_description b) "")
                  (default [] (b_tags b)) ;;
            ret (Some s))
           (fun _ => logger_warn "Failed to analyze disaster severity:" ;;
                     ret None) ;;
       t <- clock ;;
       iso <- toISOString t ;;
       let auditEntry :=
         mkAuditEntry create (u_id user) iso
           (mkChanges (b_title b) (b_location_name b) (b_description b) (b_tags b))
           severityAnalysis in
       let locationData := point_of (b_latitude b) (b_longitude b) in
       r <- Supabase.disasters_insert
              (mkDisaster disasterId (or_else (b_title b) "") (b_location_name b)
                 locationData (or_else (b_description b) "")
                 (default [] (b_tags b)) (u_id user) [auditEntry]) ;;
       throw_if_error r ;;
       io_emit (disaster_created (data r) (u_name user) severityAnalysis) ;;
       logger_info "Disaster created" ;;
       ret (mkResponse 201 (disaster_body (data r) severityAnalysis)))
    (fun _ => logger_error "Error creating disaster:" ;;
              ret (mkResponse 500 (error_body "Failed to create disaster"))).

(** The [catch] block of PUT. *)
Definition put_failed : JsError -> M Response :=
  fun _ => logger_error "Error updating disaster:" ;;
           ret (mkResponse 500 (error_body "Failed to update disaster")).

(** PUT from the point where the first [await] has resolved to
    [{ data: existing, error: fetchError }]. *)
Definition put_after_fetch (id : string) (b : Body) (fetched : Reply Disaster)
  : M Response :=
  let user := authenticate in
  throw_if_error fetched ;;
  match data fetched with
  | None => ret (mkResponse 404 (error_body "Disaster not found"))
  | Some existing =>
      if negb (String.eqb (role user) "admin")
         && negb (String.eqb (owner_id existing) (u_id user))
      then ret (mkResponse 403 (error_body "Insufficient permissions"))
      else
        severityAnalysis <-
          (if negb (bool_decide (b_description b = Some (description existing)))
              || negb (bool_decide (b_tags b = Some (tags existing)))
           then
             try_catch
               (s <- analyzeDisasterSeverity
                      (or_else (b_description b) (description existing))
                      (default (tags existing) (b_tags b)) ;;
                ret (Some s))
               (fun _ => logger_warn "Failed to re-analyze disaster severity:" ;;
                         ret None)
           else ret None) ;;
        t <- clock ;;
        iso <- toISOString t ;;
        let auditEntry :=
          mkAuditEntry update (u_id user) iso
            (mkChanges (b_title b) (b_location_name b) (b_description b) (b_tags b))
            severityAnalysis in
        let locationData :=
          match point_of (b_latitude b) (b_longitude b) with
          | Some p => Some p
          | None => location existing
          end in
        r <- Supabase.disasters_update id
               (or_else (b_title b) (title existing))
               (or_else_opt (b_location_name b) (location_name existing))
               locationData
               (or_else (b_description b) (description existing))
               (default (tags existing) (b_tags b))
               (audit_trail existing ++ [auditEntry]) ;;
        throw_if_error r ;;
        io_emit (disaster_updated (data r) (u_name user) severityAnalysis) ;;
        logger_info "Disaster updated" ;;
        ret (mkResponse 200 (disaster_body (data r) severityAnalysis))
  end.

(** [router.put('/disasters/:id', authenticate, ...)] *)
Definition put (id : string) (b : Body) : M Response :=
  try_catch
    (fetched <- Supabase.disasters_select_single id ;;
     put_after_fetch id b fetched)
    put_failed.

(** *** Requests served one after another *)

Definition succeeded (c : Completion Response) : bool :=
  match c with
  | Normal resp => status resp =? 200
  | Thrown _ => false
  end.

(** Each PUT runs to its response before the next one starts. *)
Fixpoint put_each (requests : list (string * Body)) (w : World)
  : list (string * Completion Response) * World :=
  match requests with
  | [] => ([], w)
  | (id, b) :: rest =>
      let '(c, w1) := put id b w in
      let '(cs, w2) := put_each rest w1 in
      ((id, c) :: cs, w2)
  end.

Definition successes (id : string) (served : list (string * Completion Response))
  : nat :=
  length (filter (fun ic => String.eqb (fst ic) id && succeeded (snd ic) = true)
                 served).

(** *** Requests in flight together

    A handler gives up control at each [await]; the database runs
    the statement of one request at a time.  A PUT in flight is
    therefore at one of three points. *)
Inductive Task :=
| put_received (id : string) (b : Body)
| put_holding (id : string) (b : Body) (fetched : Reply Disaster)
| put_responded (resp : Response).

(** Run one task up to its next [await] on the database. *)
Definition resume (t : Task) : M Task :=
  match t with
  | put_received id b =>
      try_catch
        (fetched <- Supabase.disasters_select_single id ;;
         ret (put_holding id b fetched))
        (fun e => resp <- put_failed e ;; ret (put_responded resp))
  | put_holding id b fetched =>
      resp <- try_catch (put_after_fetch id b fetched) put_failed ;;
      ret (put_responded resp)
  | put_responded resp => ret (put_responded resp)
  end.

(** A schedule names, step by step, the task that runs next. *)
Fixpoint run (schedule : list nat) (tasks : list Task) (w : World)
  : list Task * World :=
  match schedule with
  | [] => (tasks, w)
  | i :: rest =>
      match tasks !! i with
      | None => run rest tasks w
      | Some t =>
          match resume t w with
          | (Normal t', w') => run rest (<[i := t']> tasks) w'
          | (Thrown _, w') => run rest tasks w'
          end
      end
  end.

Definition responded_ok (t : Task) : bool :=
  match t with
  | put_responded resp => status resp =? 200
  | _ => false
  end.

End Disasters.

(** ** The proximity search of the migration *)

Module PostGIS.

Local Open Scope R_scope.

(** [ST_Distance(geometry, geometry)]: the planar distance between
    two points, in the units of their coordinates.  Both arguments of
    the call in [find_nearby_resources] are cast to [geometry] with
    SRID 4326, whose coordinates are degrees. *)
Definition ST_Distance (a b : Point) : R :=
  sqrt (Rsqr (lon a - lon b) + Rsqr (lat a - lat b)).

(** [ST_DWithin(geometry, geometry, d)] for a tolerance [d] that is
    not negative: the planar distance is at most [d].  (A negative
    tolerance is an error in PostGIS, and the call of the function
    then returns no row; here no distance is at most a negative
    number.) *)
Definition ST_DWithin (a b : Point) (d : R) : bool :=
  if Rle_dec (ST_Distance a b) d then true else false.

(** [ST_SetSRID(ST_Point(x, y), 4326)] *)
Definition ST_Point (x y : R) : Point := mkPoint x y.

End PostGIS.

Module Geo.

Local Open Scope R_scope.

(** [r.status = 'active'], false on NULL *)
Definition is_active (s : option ResourceStatus) : bool :=
  match s with
  | Some active => true
  | _ => false
  end.

(** The [WHERE] clause and the [SELECT] list, on one row of
    [resources]. *)
Definition select_row (search_lat search_lon : R) (search_radius : Z)
    (r : Resource) : option NearbyRow :=
  match r_location r with
  | None => None
  | Some p =>
      let center := PostGIS.ST_Point search_lon search_lat in
      if PostGIS.ST_DWithin p center (IZR search_radius) && is_active (r_status r)
      then Some (mkNearbyRow r (PostGIS.ST_Distance p center))
      else None
  end.

(** [ORDER BY distance_meters ASC]: rows are put in place one by one;
    a row goes before the first row that is not nearer.  The clause
    names no second key. *)
Fixpoint insert_by_distance (x : NearbyRow) (rows : list NearbyRow)
  : list NearbyRow :=
  match rows with
  | [] => [x]
  | y :: rest =>
      if Rle_dec (distance_meters x) (distance_meters y)
      then x :: y :: rest
      else y :: insert_by_distance x rest
  end.

Definition order_by_distance (rows : list NearbyRow) : list NearbyRow :=
  fold_right insert_by_distance [] rows.

(** [find_nearby_resources(search_lat, search_lon, search_radius)]
    over the rows of [resources] in the order the scan meets them:
    the rows a call returns when it gives all three arguments (none
    NULL) and a radius the function takes (an INTEGER, not
    negative).  A call the database refuses returns no row. *)
Definition find_nearby_resources (search_lat search_lon : R)
    (search_radius : Z) (table : list Resource) : list NearbyRow :=
  order_by_distance (omap (select_row search_lat search_lon search_radius) table).

(** Ascending [distance_meters]. *)
Definition nearer_or_equal (a b : NearbyRow) : Prop :=
  distance_meters a <= distance_meters b.

End Geo.

(** ** What the specification measures against

    The second reading of the search, from the words of the
    specification and not from the code: distances are geodesic, in
    meters, on a spherical earth, and ties are broken by id. *)

Module Geodesy.

Local Open Scope R_scope.

(** The mean radius of the earth, in meters. *)
Definition EARTH_RADIUS : R := 6371008.8.
Definition radians (degrees : R) : R := degrees * PI / 180.

(** The length in meters of the great-circle arc between two points
    given in degrees. *)
Definition geodesic_distance (a b : Point) : R :=
  EARTH_RADIUS *
  acos (sin (radians (lat a)) * sin (radians (lat b)) +
        cos (radians (lat a)) * cos (radians (lat b)) *
        cos (radians (lon a) - radians (lon b))).

(** Ids in ascending order. *)
Definition id_le (a b : NearbyRow) : Prop :=
  String.leb (r_id (n_resource a)) (r_id (n_resource b)) = true.

End Geodesy.

(** ** routes/resources.js *)

Module Resources.

(** [req.query]: [None] is an absent parameter. *)
Record Query := mkQuery {
  q_lat : option string;
  q_lon : option string;
  q_radius : option string }.

(** [searchLat] and [searchLon]: what the caller gave, a text or
    [undefined], or the number [parseFloat] reads from a group of the
    match on the disaster's location. *)
Inductive Coordinate :=
| from_query (s : option string)
| from_disaster (group : string).

(** The longest run of [[^ ]] at the head of a text, and what
    follows it. *)
Fixpoint word (text : string) : string * string :=
  match text with
  | EmptyString => (EmptyString, EmptyString)
  | String c rest =>
      if Ascii.eqb c " " then (EmptyString, text)
      else let '(w, after) := word rest in (String c w, after)
  end.

(** What comes before the last [)] of a text. *)
Fixpoint before_last_paren (text : string) : option string :=
  match text with
  | EmptyString => None
  | String c rest =>
      match before_last_paren rest with
      | Some g => Some (String c g)
      | None => if Ascii.eqb c ")" then Some EmptyString else None
      end
  end.

(** What follows [prefix] in a text that starts with it. *)
Fixpoint after_prefix (prefix text : string) : option string :=
  match prefix, text with
  | EmptyString, _ => Some text
  | String a prefix', String b text' =>
      if Ascii.eqb a b then after_prefix prefix' text' else None
  | String _ _, EmptyString => None
  end.

(** [([^ ]+) ([^ ]+)\)] at the head of a text.  Both groups are
    greedy: the first is the whole run up to the first space, the
    second ends at the last [)] of the run that follows the space. *)
Definition match_groups (text : string) : option (string * string) :=
  match word text with
  | (String c g1, String _ after) =>
      match before_last_paren (fst (word after)) with
      | Some (String d g2) => Some (String c g1, String d g2)
      | _ => None
      end
  | _ => None
  end.

(** [text.match(/POINT\(([^ ]+) ([^ ]+)\)/)]: the two groups of the
    first place where the pattern matches, [None] for [null]. *)
Fixpoint locationMatch (text : string) : option (string * string) :=
  match text with
  | EmptyString => None
  | String _ rest =>
      match from_option match_groups None (after_prefix "POINT(" text) with
      | Some groups => Some groups
      | None => locationMatch rest
      end
  end.

(** The digits of a hexadecimal text. *)
Definition is_hex_digit (c : ascii) : bool :=
  let n := nat_of_ascii c in
  ((48 <=? n)%nat && (n <=? 57)%nat) || ((65 <=? n)%nat && (n <=? 70)%nat)
  || ((97 <=? n)%nat && (n <=? 102)%nat).

Fixpoint hexadecimal (text : string) : bool :=
  match text with
  | EmptyString => true
  | String c rest => is_hex_digit c && hexadecimal rest
  end.

(** A text with no space in it. *)
Fixpoint spaceless (text : string) : bool :=
  match text with
  | EmptyString => true
  | String c rest => negb (Ascii.eqb c " ") && spaceless rest
  end.

Section Route.

(** The text the store sends for a value of the [geography] column
    [location].  (The store writes it as the hexadecimal digits of
    its binary form.) *)
Variable geography_out : Point -> string.

(** Lines 40 to 89 of the handler: the remote call of
    [find_nearby_resources], the seeding of sample resources and
    the answer, from the search centre on. *)
Variable search_and_respond :
  string -> Coordinate -> Coordinate -> option string -> M Response.

(** [from('disasters').select('location').eq('id', id).single()] *)
Definition disasters_select_location (id : string) : M (Reply (option string)) :=
  Supabase.call
    (fun w =>
       (Normal (Supabase.single
                  ((fun d => geography_out <$> location d) <$> disasters w !! id)),
        w)).

(** [router.get('/disasters/:id/resources', ...)] *)
Definition get (id : string) (q : Query) : M Response :=
  let location_required :=
    mkResponse 400
      (error_body
         "Location coordinates required or disaster must have location set") in
  try_catch
    (if negb (truthy (q_lat q)) || negb (truthy (q_lon q))
     then
       r <- disasters_select_location id ;;
       throw_if_error r ;;
       match data r with
       | Some (Some text) =>
           if String.eqb text "" then ret location_required
           else
             match locationMatch text with
             | Some (group1, group2) =>
                 search_and_respond id (from_disaster group2)
                                    (from_disaster group1) (q_radius q)
             | None =>
                 search_and_respond id (from_query (q_lat q))
                                    (from_query (q_lon q)) (q_radius q)
             end
       | _ => ret location_required
       end
     else
       search_and_respond id (from_query (q_lat q)) (from_query (q_lon q))
                          (q_radius q))
    (fun _ => logger_error "Error fetching resources:" ;;
              ret (mkResponse 500 (error_body "Failed to fetch resources"))).

End Route.

End Resources.

(** ** Sample worlds *)

Module Samples.

(** A quiet world: empty tables, no fault pending. *)
Definition quiet (t : Z) : World :=
  mkWorld ∅ ∅ [] t [] (fun _ _ => JStr "Severity: 5/10") (fun n => "id-" +:+ pretty n)
          0 [] [].

(** One cache entry that expires at instant 1000, read at [t]. *)
Definition one_entry (t : Z) : World :=
  with_cache {["k" := mkCacheRow (JStr "v") 1000]} (quiet t).

(** An active shelter of disaster [id-0] at [POINT(x y)]. *)
Definition depot (id : string) (x y : R) : Resource :=
  mkResource id "id-0" "Depot" None (Some (mkPoint x y)) shelter None None
             (Some active).

Definition flood : Disasters.Body :=
  Disasters.mkBody (Some "Flood") (Some "Riverside") (Some "River overflow")
                   (Some ["flood"]) None None.
(** The record the POST of [flood] leaves in [quiet 0]. *)
Definition flood_record : Disaster :=
  mkDisaster "id-0" "Flood" (Some "Riverside") None "River overflow" ["flood"]
    "netrunnerX"
    [mkAuditEntry create "netrunnerX" 0
       (mkChanges (Some "Flood") (Some "Riverside") (Some "River overflow")
                  (Some ["flood"]))
       (Some (JStr "Severity: 5/10"))].
Definition flood_worse : Disasters.Body :=
  Disasters.mkBody None None (Some "Levee breached") None None None.
Definition flood_tagged : Disasters.Body :=
  Disasters.mkBody None None None (Some ["flood"; "urgent"]) None None.

End Samples.

(** ** Tasks in flight: what a schedule keeps *)

Module Schedules.

(** The number of tasks that have answered 200. *)
Definition completed (tasks : list Disasters.Task) : nat :=
  length (filter (fun t => Disasters.responded_ok t = true) tasks).

(** [P] holds of the trail a task holds for record [id0], if it holds
    one. *)
Definition held_trail (id0 : string) (P : list AuditEntry -> Prop)
    (t : Disasters.Task) : Prop :=
  match t with
  | Disasters.put_holding id _ fetched =>
      id = id0 -> forall x, data fetched = Some x -> P (audit_trail x)
  | _ => True
  end.

(** A trail that still starts with [e0] and holds at most [bound]
    entries. *)
Definition sound_trail (e0 : AuditEntry) (bound : nat)
    (trail : list AuditEntry) : Prop :=
  (exists rest, trail = e0 :: rest) /\ (length trail <= bound)%nat.

(** What every step of a schedule keeps: the record [id0] is in the
    table with a sound trail, and so is every trail a task holds for
    it; the bound is [len0] plus the tasks answered 200 so far. *)
Definition invariant (id0 : string) (e0 : AuditEntry) (len0 : nat)
    (tasks : list Disasters.Task) (w : World) : Prop :=
  (exists d, disasters w !! id0 = Some d /\
             sound_trail e0 (len0 + completed tasks) (audit_trail d)) /\
  Forall (held_trail id0 (sound_trail e0 (len0 + completed tasks))) tasks.

End Schedules.

(** ** routes/disasters.js: reading one record *)

Module DisasterRead.

(** What [GET /disasters/:id] sends back: [{ disaster }] or
    [{ error }]. *)
Inductive Body :=
| error_body (message : string)
| disaster_body (d : option Disaster).

Record Response := mkResponse { status : Z; body : Body }.

(** [router.get('/disasters/:id', authenticate, ...)] *)
Definition get (id : string) : M Response :=
  try_catch
    (r <- Supabase.disasters_select_single id ;;
     throw_if_error r ;;
     match data r with
     | None => ret (mkResponse 404 (error_body "Disaster not found"))
     | Some d =>
         logger_info "Disaster retrieved" ;;
         ret (mkResponse 200 (disaster_body (Some d)))
     end)
    (fun _ => logger_error "Error retrieving disaster:" ;;
              ret (mkResponse 500 (error_body "Failed to retrieve disaster"))).

End DisasterRead.

(** ** services/socialMediaService.js: the priority of a report *)

Module SocialMediaService.

(** [String.prototype.toLowerCase] on the bytes of a text: the
    letters A to Z are lowered, every other byte stays. *)
Definition lower (c : ascii) : ascii :=
  let n := nat_of_ascii c in
  if (65 <=? n)%nat && (n <=? 90)%nat then ascii_of_nat (n + 32) else c.

Fixpoint toLowerCase (text : string) : string :=
  match text with
  | EmptyString => EmptyString
  | String c rest => String (lower c) (toLowerCase rest)
  end.

(** [text.includes(keyword)] *)
Fixpoint includes (text keyword : string) : bool :=
  String.prefix keyword text ||
  match text with
  | EmptyString => false
  | String _ rest => includes rest keyword
  end.

Inductive Priority := low | medium | high.

Definition urgentKeywords : list string :=
  ["urgent"; "emergency"; "sos"; "help"; "trapped"; "injured"].
Definition moderateKeywords : list string :=
  ["need"; "volunteer"; "donation"; "shelter"].

(** [static calculatePriority(text)] *)
Definition calculatePriority (text : string) : Priority :=
  let lowerText := toLowerCase text in
  if existsb (fun keyword => includes lowerText keyword) urgentKeywords
  then high
  else if existsb (fun keyword => includes lowerText keyword) moderateKeywords
       then medium
       else low.

(** The order of urgency. *)
Definition rank (p : Priority) : nat :=
  match p with
  | low => 0
  | medium => 1
  | high => 2
  end.

End SocialMediaService.

(** ** services/geminiService.js: the cache keys *)

Module Base64.

(** The alphabet of RFC 4648. *)
Definition alphabet : string :=
  "ABCDEFGHIJKLMNOPQRSTUVWXYZabcdefghijklmnopqrstuvwxyz0123456789+/".

Definition digit (n : N) : ascii :=
  match String.get (N.to_nat n) alphabet with
  | Some c => c
  | None => "="%char
  end.

(** [Buffer.prototype.toString('base64')] on the bytes of a text:
    three bytes give four digits; one or two bytes left over are
    padded with [=]. *)
Fixpoint encode (bytes : list ascii) : list ascii :=
  match bytes with
  | a :: b :: c :: rest =>
      let n := (N_of_ascii a * 65536 + N_of_ascii b * 256 + N_of_ascii c)%N in
      digit (n / 262144) :: digit ((n / 4096) mod 64) ::
      digit ((n / 64) mod 64) :: digit (n mod 64) :: encode rest
  | [a; b] =>
      let n := (N_of_ascii a * 65536 + N_of_ascii b * 256)%N in
      [digit (n / 262144); digit ((n / 4096) mod 64);
       digit ((n / 64) mod 64); "="%char]
  | [a] =>
      let n := (N_of_ascii a * 65536)%N in
      [digit (n / 262144); digit ((n / 4096) mod 64); "="%char; "="%char]
  | [] => []
  end.

End Base64.

Module GeminiService.

(** [Buffer.from(text).toString('base64').slice(0, 50)] *)
Definition digest (text : string) : string :=
  string_of_list_ascii (take 50 (Base64.encode (list_ascii_of_string text))).

(** The [cacheKey] of [extractLocation(description)]. *)
Definition location_cache_key (description : string) : string :=
  "location_extract_" ++ digest description.

(** The [cacheKey] of [verifyImage(imageUrl, context)]. *)
Definition image_cache_key (imageUrl : string) : string :=
  "image_verify_" ++ digest imageUrl.

(** The [cacheKey] of [analyzeDisasterSeverity(description, tags)];
    [tags.join('')] puts the tags end to end. *)
Definition severity_cache_key (description : string) (tags : list string)
  : string :=
  "severity_" ++ digest (description ++ String.concat "" tags).

End GeminiService.

(** ** services/officialUpdatesService.js *)

(** Truthiness of a JSON value, as [if (cached)] tests it. *)
Definition js_truthy (j : Json) : bool :=
  match j with
  | JNull => false
  | JBool b => b
  | JNum n => negb (n =? 0)
  | JStr s => negb (String.eqb s "")
  | JArr _ => true
  | JObj _ => true
  end.

Module OfficialUpdatesService.

Section Service.

(** [String.prototype.toUpperCase], and the [message] of an error. *)
Variable toUpperCase : string -> string.
Variable error_message : JsError -> string.

(** One element of [mockUpdates]; an instant stands for its ISO
    string. *)
Definition mock_update (title content source : string) (published_at : Z)
    (urgency url : string) : Json :=
  JObj [("title", JStr title); ("content", JStr content);
        ("source", JStr source); ("published_at", JNum published_at);
        ("urgency", JStr urgency); ("url", JStr url)].

(** The array [mockUpdates], with the three instants of publication. *)
Definition mockUpdates (disasterType location : string)
    (published1 published2 published3 : Z) : list Json :=
  [mock_update
     (toUpperCase disasterType ++ " Alert: " ++ location ++ " Area")
     "Official evacuation orders in effect for residents in flood-prone areas. Emergency shelters opened at local schools."
     "Emergency Management Agency" published1 "high"
     "https://emergency.gov/alerts/flood-alert";
   mock_update
     "Resource Distribution Centers Open"
     ("Three resource distribution centers are now operational in "
        ++ location ++ ". Providing food, water, and medical supplies.")
     "Red Cross" published2 "medium"
     "https://redcross.org/disaster-relief";
   mock_update
     ("Weather Update: " ++ disasterType ++ " Conditions")
     "Current weather conditions show improvement. Residents advised to remain cautious and follow local authority guidance."
     "National Weather Service" published3 "low"
     "https://weather.gov/alerts"].

(** [static async scrapeOfficialSources(disasterType, location)] *)
Definition scrapeOfficialSources (disasterType location : string)
  : M (list Json) :=
  try_catch
    (t1 <- clock ;;
     published1 <- toISOString (t1 - 2 * 60 * 60 * 1000) ;;
     t2 <- clock ;;
     published2 <- toISOString (t2 - 4 * 60 * 60 * 1000) ;;
     t3 <- clock ;;
     published3 <- toISOString (t3 - 6 * 60 * 60 * 1000) ;;
     ret (mockUpdates disasterType location published1 published2 published3))
    (fun _ => logger_error "Error scraping official sources:" ;; ret []).

(** The [updatesData] of a fetch at instant [fetched_at]. *)
Definition updatesData (updates : list Json) (disasterType location : string)
    (fetched_at : Z) : Json :=
  JObj [("updates", JArr updates); ("disaster_type", JStr disasterType);
        ("location", JStr location); ("fetched_at", JNum fetched_at)].

Definition cacheKey (disasterType location : string) : string :=
  "official_updates_" ++ disasterType ++ "_" ++ location.

(** What a fetch that goes to the sources at instant [t] answers. *)
Definition fresh (disasterType location : string) (t : Z) : Json :=
  updatesData
    (mockUpdates disasterType location
       (t - 2 * 60 * 60 * 1000) (t - 4 * 60 * 60 * 1000) (t - 6 * 60 * 60 * 1000))
    disasterType location t.

(** [static async fetchOfficialUpdates(disasterType, location)] *)
Definition fetchOfficialUpdates (disasterType location : string) : M Json :=
  try_catch
    (cached <- CacheService.get (cacheKey disasterType location) ;;
     if js_truthy cached
     then (logger_debug "Official updates from cache" ;; ret cached)
     else
       updates <- scrapeOfficialSources disasterType location ;;
       t <- clock ;;
       fetched_at <- toISOString t ;;
       CacheService.set (cacheKey disasterType location)
         (updatesData updates disasterType location fetched_at) (Some 30) ;;
       logger_info "Official updates fetched" ;;
       ret (updatesData updates disasterType location fetched_at))
    (fun e => logger_error "Official updates fetch error:" ;;
              ret (JObj [("updates", JArr []);
                         ("error", JStr (error_message e))])).

End Service.

End OfficialUpdatesService.


(** ** More sample data *)

Module Cases.

(** The world after the POST of [Samples.flood] in a quiet world. *)
Definition reported : World :=
  world_after (Disasters.post Samples.flood (Samples.quiet 0)).

(** Thirty-nine bytes that many image addresses of one host share. *)
Definition host : string := "https://cdn.example.org/disaster/images".

(** Letters as they are, and one text for every error. *)
Definition as_written (s : string) : string := s.
Definition some_message (e : JsError) : string := "error".

Definition body_at (latitude longitude : R) : Disasters.Body :=
  Disasters.mkBody (Some "Flood") None (Some "River overflow") None
                   (Some latitude) (Some longitude).

(** The flood of [Samples.flood_record], placed at [POINT(1 0)], and
    a world that holds it. *)
Definition placed_record : Disaster :=
  mkDisaster "id-0" "Flood" (Some "Riverside") (Some (mkPoint 1 0))
    "River overflow" ["flood"] "netrunnerX"
    (audit_trail Samples.flood_record).
Definition placed : World :=
  with_disasters {["id-0" := placed_record]} (Samples.quiet 0).

(** The text the store sends for the geography [POINT(1 0)] with
    SRID 4326, for every point. *)
Definition ewkb (p : Point) : string :=
  "0101000020E6100000000000000000F03F0000000000000000".

End Cases.

(** * Properties *)

(** ** The cache *)

Section CacheFacts.

Ltac run :=
  unfold CacheService.get, CacheService.set, CacheService.delete,
    Supabase.cache_select_single, Supabase.cache_upsert,
    Supabase.cache_delete_eq, Supabase.call, Supabase.next_fault,
    Supabase.single, toISOString, throw_if_error, try_catch, bind, ret,
    throw, clock, logger_error, logger_debug, result, world_after.

(** With the store answering, [get] is a lookup followed by the
    expiry test. *)
Lemma get_answered key w :
  faults w = [] ->
  CacheService.get key w =
    match cache w !! key with
    | None => (Normal JNull, w)
    | Some row =>
        if expires_at row <? now w
        then (Normal JNull, with_cache (delete key (cache w)) w)
        else (Normal (value row), w)
    end.
Proof.
  intros Hf. run. rewrite Hf. simpl.
  destruct (cache w !! key) as [row|]; simpl; [|done].
  destruct (expires_at row <? now w); simpl; [|done].
  by rewrite Hf.
Qed.

(** With the store answering, a value that is not null and an expiry
    the store reads, [set] writes the row. *)
Lemma set_answered key v ttl w :
  faults w = [] ->
  v <> JNull ->
  Supabase.FIRST_TIMESTAMP <= now w + default 60 ttl * 60 * 1000
    <= Supabase.LAST_TIMESTAMP ->
  CacheService.set key v ttl w =
    (Normal tt,
     with_cache (<[key := mkCacheRow v (now w + default 60 ttl * 60 * 1000)]>
                   (cache w)) w).
Proof.
  intros Hf Hv Ht. run. simpl.
  unfold Supabase.FIRST_TIMESTAMP, Supabase.LAST_TIMESTAMP, Supabase.YEAR_0000,
    MAX_TIME in *.
  destruct (Z.leb_spec (Z.abs (now w + default 60 ttl * 60 * 1000))
              8640000000000000); [|lia].
  simpl. rewrite Hf. simpl.
  destruct (Z.ltb_spec (now w + default 60 ttl * 60 * 1000) (-62167219200000));
    [lia|].
  destruct (Z.ltb_spec 253402300799999 (now w + default 60 ttl * 60 * 1000));
    [lia|].
  destruct (Z.ltb_spec (now w + default 60 ttl * 60 * 1000) (-62135596800000));
    [lia|].
  simpl. by destruct v.
Qed.

(** A null, or an expiry the store does not read, is never written,
    whatever the store answers. *)
Lemma set_refused key v ttl w :
  v = JNull \/
  now w + default 60 ttl * 60 * 1000 < Supabase.FIRST_TIMESTAMP \/
  Supabase.LAST_TIMESTAMP < now w + default 60 ttl * 60 * 1000 ->
  cache (world_after (CacheService.set key v ttl w)) = cache w.
Proof.
  intros Hbad. run. simpl.
  unfold Supabase.FIRST_TIMESTAMP, Supabase.LAST_TIMESTAMP, Supabase.YEAR_0000
    in *.
  destruct (Z.abs _ <=? MAX_TIME); simpl; [|done].
  destruct (faults w) as [|[| |] fs]; simpl; try done.
  all: destruct (Z.ltb_spec (now w + default 60 ttl * 60 * 1000)
                   (-62167219200000)); simpl; [done|].
  all: destruct (Z.ltb_spec 253402300799999
                   (now w + default 60 ttl * 60 * 1000)); simpl; [done|].
  all: destruct (Z.ltb_spec (now w + default 60 ttl * 60 * 1000)
                   (-62135596800000)); simpl; [done|].
  all: destruct Hbad as [->|[?|?]]; [done|lia|lia].
Qed.

Lemma get_returns key w : exists j, result (CacheService.get key w) = Normal j.
Proof. run. repeat (simpl; case_match; simplify_eq/=); eauto. Qed.

Lemma set_returns key v ttl w : result (CacheService.set key v ttl w) = Normal tt.
Proof.
  run. repeat (simpl; case_match; simplify_eq/=); eauto.
  all: match goal with |- Normal ?u = Normal tt => by destruct u end.
Qed.

Lemma delete_returns key w : result (CacheService.delete key w) = Normal tt.
Proof. run. repeat (simpl; case_match; simplify_eq/=); eauto. Qed.

(** A stale entry is a miss whatever the store answers. *)
Lemma get_stale key w row :
  cache w !! key = Some row ->
  expires_at row < now w ->
  result (CacheService.get key w) = Normal JNull.
Proof.
  intros Hrow Hlt. run.
  destruct (faults w) as [|[| |] fs]; simpl; try done.
  all: rewrite ?Hrow; simpl.
  all: destruct (Z.ltb_spec (expires_at row) (now w)); [|lia]; simpl.
  all: repeat (simpl; case_match; simplify_eq/=); eauto.
Qed.

End CacheFacts.

Section CacheClaims.

Lemma set_keeps_no_fault key v ttl w :
  faults w = [] -> faults (world_after (CacheService.set key v ttl w)) = [].
Proof.
  intros Hf.
  unfold CacheService.set, Supabase.cache_upsert, Supabase.call,
    Supabase.next_fault, toISOString, throw_if_error, try_catch, bind, ret,
    throw, clock, logger_error, logger_debug, world_after.
  simpl. destruct (Z.abs _ <=? MAX_TIME); simpl; [|done].
  rewrite Hf. simpl.
  repeat (case_match; unfold ret in *; simpl in *; simplify_eq/=);
    by rewrite ?Hf.
Qed.

(** C2, as stated, fails at the boundary: an entry whose [expires_at]
    is the very instant of the read is served, and stays in the
    table; the same happens when exactly the TTL has elapsed since
    the [set]. *)
Lemma get_at_expiry_instant_is_a_hit :
  cache (Samples.one_entry 1000) !! "k" = Some (mkCacheRow (JStr "v") 1000) /\
  expires_at (mkCacheRow (JStr "v") 1000) <= now (Samples.one_entry 1000) /\
  result (CacheService.get "k" (Samples.one_entry 1000)) = Normal (JStr "v") /\
  result (CacheService.get "k" (Samples.one_entry 1000)) <> Normal JNull /\
  cache (world_after (CacheService.get "k" (Samples.one_entry 1000))) !! "k"
    = Some (mkCacheRow (JStr "v") 1000) /\
  result (CacheService.get "k"
            (at_time (0 + 5 * 60 * 1000)
               (world_after (CacheService.set "k" (JStr "v") (Some 5)
                               (Samples.quiet 0)))))
    = Normal (JStr "v").
Proof. vm_compute. repeat split; try done. Qed.

(** C2, amended: [get] treats an entry whose [expires_at] is strictly
    before the current instant as a miss, and deletes it when the
    store answers; an entry that has not passed its expiry is served;
    once more than the TTL has elapsed since a [set] that reached the
    store (the store answering, a value that is not null, an expiry
    the store reads), [get] is a miss. *)
Theorem get_treats_expired_as_miss (key : string) (w : World) :
  (forall row,
      cache w !! key = Some row -> expires_at row < now w ->
      result (CacheService.get key w) = Normal JNull /\
      (faults w = [] ->
       cache (world_after (CacheService.get key w)) !! key = None)) /\
  (forall row,
      faults w = [] -> cache w !! key = Some row -> now w <= expires_at row ->
      result (CacheService.get key w) = Normal (value row)) /\
  (forall v ttl t,
      faults w = [] ->
      v <> JNull ->
      Supabase.FIRST_TIMESTAMP <= now w + default 60 ttl * 60 * 1000
        <= Supabase.LAST_TIMESTAMP ->
      now w + default 60 ttl * 60 * 1000 < t ->
      result (CacheService.get key
                (at_time t (world_after (CacheService.set key v ttl w))))
        = Normal JNull).
Proof.
  split; [|split].
  - intros row Hrow Hlt. split; [by eapply get_stale|].
    intros Hf. rewrite get_answered, Hrow by done.
    destruct (Z.ltb_spec (expires_at row) (now w)); [|lia].
    simpl. apply lookup_delete_eq.
  - intros row Hf Hrow Hle. rewrite get_answered, Hrow by done.
    by destruct (Z.ltb_spec (expires_at row) (now w)); [lia|].
  - intros v ttl t Hf Hv Hreads Hlt. rewrite set_answered by done.
    eapply get_stale; simpl; [apply lookup_insert_eq|]. simpl. lia.
Qed.

Lemma get_treats_expired_as_miss_witness :
  (result (CacheService.get "k" (Samples.one_entry 1001)) = Normal JNull /\
   cache (world_after (CacheService.get "k" (Samples.one_entry 1001))) !! "k"
   = None) /\
  result (CacheService.get "k"
            (at_time (5 * 60 * 1000 + 1)
               (world_after (CacheService.set "k" (JStr "v") (Some 5)
                               (Samples.quiet 0)))))
  = Normal JNull.
Proof.
  split.
  - destruct (proj1 (get_treats_expired_as_miss "k" (Samples.one_entry 1001))
                (mkCacheRow (JStr "v") 1000)) as [Hmiss Hgone].
    + reflexivity.
    + simpl. lia.
    + split; [exact Hmiss|]. apply Hgone. reflexivity.
  - apply (proj2 (proj2 (get_treats_expired_as_miss "k" (Samples.quiet 0)))
             (JStr "v") (Some 5) (5 * 60 * 1000 + 1)).
    + reflexivity.
    + discriminate.
    + vm_compute. split; discriminate.
    + simpl. lia.
Defined.

(** C7: no operation of the cache lets an exception out.  [get]
    returns something, [set], [delete] and the sweep return; and when
    the store fails the call made by [get], [get] returns [null]. *)
Theorem cache_swallows_failures (key : string) (v : Json) (ttl : option Z)
    (w : World) :
  (exists j, result (CacheService.get key w) = Normal j) /\
  result (CacheService.set key v ttl w) = Normal tt /\
  result (CacheService.delete key w) = Normal tt /\
  result (CacheService.cleanExpiredCache w) = Normal tt /\
  (forall f fs, faults w = f :: fs -> f <> NoFault ->
                result (CacheService.get key w) = Normal JNull).
Proof.
  repeat split.
  - apply get_returns.
  - apply set_returns.
  - apply delete_returns.
  - unfold CacheService.cleanExpiredCache, Supabase.cache_delete_lt,
      Supabase.call, Supabase.next_fault, toISOString, throw_if_error,
      try_catch, bind, ret, throw, clock, logger_error, logger_info, result.
    repeat (simpl; case_match; simplify_eq/=); eauto.
  - intros f fs Hf Hne.
    unfold CacheService.get, Supabase.cache_select_single, Supabase.call,
      Supabase.next_fault, try_catch, bind, ret, throw, logger_error, result.
    rewrite Hf. destruct f; [done| |]; simpl; [|done].
    repeat (simpl; case_match; simplify_eq/=); eauto.
Qed.

Lemma cache_swallows_failures_witness :
  result (CacheService.get "k" (with_faults [Rejected] (Samples.one_entry 0)))
    = Normal JNull.
Proof.
  apply (proj2 (proj2 (proj2 (proj2
           (cache_swallows_failures "k" JNull None
              (with_faults [Rejected] (Samples.one_entry 0))))))
           Rejected []).
  - reflexivity.
  - discriminate.
Defined.

(** C8, as stated, fails: the second [set] does not replace the entry
    unconditionally.  The table refuses a null value and an expiry
    beyond the year 9999; [set] swallows the refusal, and the read
    that follows serves the first value. *)
Lemma refused_set_leaves_the_first_value :
  let w1 := world_after (CacheService.set "k" (JStr "old") (Some 100)
                           (at_time 10 (Samples.quiet 0))) in
  let nulled := world_after (CacheService.set "k" JNull (Some 1) (at_time 20 w1)) in
  let far := world_after (CacheService.set "k" (JStr "new") (Some 5000000000)
                            (at_time 20 w1)) in
  cache nulled !! "k" = Some (mkCacheRow (JStr "old") (10 + 100 * 60 * 1000)) /\
  result (CacheService.get "k" (at_time 30 nulled)) = Normal (JStr "old") /\
  result (CacheService.get "k" (at_time 30 nulled)) <> Normal JNull /\
  cache far !! "k" = Some (mkCacheRow (JStr "old") (10 + 100 * 60 * 1000)) /\
  result (CacheService.get "k" (at_time 30 far)) = Normal (JStr "old") /\
  result (CacheService.get "k" (at_time 30 far)) <> Normal (JStr "new").
Proof. vm_compute. repeat split; discriminate. Qed.

(** C8, amended: a second [set] for a key whose row the table accepts
    (a value that is not null, an expiry the store reads) replaces
    the value and the expiry whatever the first one left: the stored
    row is [v2] with expiry the instant of the second [set] plus its
    TTL, and a later [get] returns [v2] as long as that expiry has
    not passed (and [null] after), never [v1].  A second [set] whose
    row the table refuses leaves the entry as the first one left
    it. *)
Theorem set_overwrites (k : string) (v1 v2 : Json) (ttl1 ttl2 t1 t2 t3 : Z)
    (w : World) :
  faults w = [] ->
  let w1 := world_after (CacheService.set k v1 (Some ttl1) (at_time t1 w)) in
  let w2 := world_after (CacheService.set k v2 (Some ttl2) (at_time t2 w1)) in
  (v2 <> JNull ->
   Supabase.FIRST_TIMESTAMP <= t2 + ttl2 * 60 * 1000 <= Supabase.LAST_TIMESTAMP ->
   cache w2 !! k = Some (mkCacheRow v2 (t2 + ttl2 * 60 * 1000)) /\
   result (CacheService.get k (at_time t3 w2))
     = Normal (if t2 + ttl2 * 60 * 1000 <? t3 then JNull else v2) /\
   (t3 <= t2 + ttl2 * 60 * 1000 ->
    result (CacheService.get k (at_time t3 w2)) = Normal v2)) /\
  (v2 = JNull \/
   t2 + ttl2 * 60 * 1000 < Supabase.FIRST_TIMESTAMP \/
   Supabase.LAST_TIMESTAMP < t2 + ttl2 * 60 * 1000 ->
   cache w2 = cache w1).
Proof.
  intros Hf w1 w2. split.
  - intros Hv2 Hreads.
    assert (Hf1 : faults w1 = []) by (by apply set_keeps_no_fault).
    assert (Hw2 : w2 = with_cache
                         (<[k := mkCacheRow v2 (t2 + ttl2 * 60 * 1000)]> (cache w1))
                         (at_time t2 w1)).
    { unfold w2. by rewrite set_answered. }
    assert (Hrow : cache w2 !! k = Some (mkCacheRow v2 (t2 + ttl2 * 60 * 1000))).
    { rewrite Hw2. simpl. apply lookup_insert_eq. }
    assert (Hget : result (CacheService.get k (at_time t3 w2))
                   = Normal (if t2 + ttl2 * 60 * 1000 <? t3 then JNull else v2)).
    { rewrite get_answered by (by rewrite Hw2). simpl. rewrite Hrow. simpl.
      by destruct (t2 + ttl2 * 60 * 1000 <? t3). }
    split; [done|]. split; [done|].
    intros Hle. rewrite Hget.
    by destruct (Z.ltb_spec (t2 + ttl2 * 60 * 1000) t3); [lia|].
  - intros Hrefused. unfold w2.
    by rewrite (set_refused k v2 (Some ttl2) (at_time t2 w1)).
Qed.

Lemma set_overwrites_witness :
  result (CacheService.get "k"
            (at_time 30
               (world_after
                  (CacheService.set "k" (JStr "new") (Some 1)
                     (at_time 20
                        (world_after
                           (CacheService.set "k" (JStr "old") (Some 100)
                              (at_time 10 (Samples.quiet 0)))))))))
    = Normal (JStr "new") /\
  cache (world_after
           (CacheService.set "k" JNull (Some 1)
              (at_time 20
                 (world_after
                    (CacheService.set "k" (JStr "old") (Some 100)
                       (at_time 10 (Samples.quiet 0)))))))
  = cache (world_after
             (CacheService.set "k" (JStr "old") (Some 100)
                (at_time 10 (Samples.quiet 0)))).
Proof.
  split.
  - apply (proj1 (set_overwrites "k" (JStr "old") (JStr "new") 100 1 10 20 30
                    (Samples.quiet 0) eq_refl)).
    + discriminate.
    + vm_compute. split; discriminate.
    + vm_compute. discriminate.
  - apply (proj2 (set_overwrites "k" (JStr "old") JNull 100 1 10 20 30
                    (Samples.quiet 0) eq_refl)).
    left. reflexivity.
Defined.

(** C10: [set] without a TTL never leaves an entry that lives for
    ever.  Whatever the store answers, the entry under the key
    afterwards is the one that was there or the new one with expiry
    sixty minutes after the call; and when the store answers and
    accepts the row (a value that is not null, an expiry it reads)
    it is the new one, a miss for every read later than that. *)
Theorem set_default_ttl (key : string) (v : Json) (w : World) :
  let w' := world_after (CacheService.set key v None w) in
  (cache w' !! key = cache w !! key \/
   cache w' !! key = Some (mkCacheRow v (now w + 60 * 60 * 1000))) /\
  (faults w = [] ->
   v <> JNull ->
   Supabase.FIRST_TIMESTAMP <= now w + 60 * 60 * 1000 <= Supabase.LAST_TIMESTAMP ->
   cache w' !! key = Some (mkCacheRow v (now w + 60 * 60 * 1000)) /\
   (forall t, now w + 60 * 60 * 1000 < t ->
              result (CacheService.get key (at_time t w')) = Normal JNull)).
Proof.
  intros w'. split.
  - unfold w', CacheService.set, Supabase.cache_upsert, Supabase.call,
      Supabase.next_fault, toISOString, throw_if_error, try_catch, bind, ret,
      throw, clock, logger_error, logger_debug, world_after.
    simpl.
    repeat (case_match; unfold ret in *; simpl in *; simplify_eq/=);
      try (by left).
    all: right; apply lookup_insert_eq.
  - intros Hf Hv Hreads.
    assert (Hw' : w' = with_cache
                         (<[key := mkCacheRow v (now w + 60 * 60 * 1000)]> (cache w))
                         w).
    { unfold w'. by rewrite set_answered. }
    assert (Hrow : cache w' !! key
                   = Some (mkCacheRow v (now w + 60 * 60 * 1000))).
    { rewrite Hw'. simpl. apply lookup_insert_eq. }
    split; [done|].
    intros t Hlt. eapply get_stale; simpl; [exact Hrow|]. simpl. lia.
Qed.

Lemma set_default_ttl_witness :
  cache (world_after (CacheService.set "k" (JStr "v") None (Samples.quiet 500)))
    !! "k" = Some (mkCacheRow (JStr "v") (500 + 60 * 60 * 1000)).
Proof.
  apply (proj2 (set_default_ttl "k" (JStr "v") (Samples.quiet 500))).
  - reflexivity.
  - discriminate.
  - vm_compute. split; discriminate.
Defined.

End CacheClaims.

(** ** The audit trail *)

Section AuditTrailFacts.

Ltac run_routes :=
  unfold Disasters.post, Disasters.put, Disasters.put_after_fetch,
    Disasters.put_failed, Disasters.analyzeDisasterSeverity,
    Supabase.disasters_select_single, Supabase.disasters_insert,
    Supabase.disasters_update, Supabase.call, Supabase.next_fault,
    Supabase.single, uuidv4, io_emit, logger_info, logger_warn, logger_error,
    toISOString, throw_if_error, try_catch, bind, ret, throw, clock,
    result, world_after.

Ltac crunch := repeat (case_match; simpl in *; simplify_eq/=).

(** What a PUT does to the table: nothing unless it answers 200, and
    then it rewrites the row with the trail it read plus one
    [update] entry. *)
Lemma put_effect id b w :
  (exists resp, result (Disasters.put id b w) = Normal resp) /\
  ((Disasters.succeeded (result (Disasters.put id b w)) = false /\
    disasters (world_after (Disasters.put id b w)) = disasters w) \/
   (Disasters.succeeded (result (Disasters.put id b w)) = true /\
    exists old new e,
      disasters w !! id = Some old /\
      disasters (world_after (Disasters.put id b w))
        = <[id := new]> (disasters w) /\
      audit_trail new = (audit_trail old ++ [e])%list /\
      action e = update)).
Proof.
  run_routes.
  destruct (faults w) as [|[| |] fs] eqn:Hf; simpl in *; simplify_eq/=.
  all: destruct (disasters w !! id) as [old|] eqn:Hold; simpl in *;
    simplify_eq/=.
  all: rewrite ?Hf in *; simpl in *.
  all: crunch.
  all: try (rewrite ?Hf in *; simpl in *; simplify_eq/=).
  all: try (rewrite ?Hold in *; simpl in *; simplify_eq/=).
  all: split; [by eauto|].
  all: try (left; done).
  all: right; split; [done|]; eexists _, _, _; split_and!; done.
Qed.

(** What a POST that answers 201 did: it inserted a fresh row whose
    trail is a single [create] entry. *)
Lemma post_effect b w resp :
  result (Disasters.post b w) = Normal resp -> status resp = 201 ->
  exists d e,
    body resp = disaster_body (Some d) (severity_analysis e) /\
    audit_trail d = [e] /\
    d_id d = uuids w (uuid_count w) /\
    disasters w !! d_id d = None /\
    disasters (world_after (Disasters.post b w))
      = <[d_id d := d]> (disasters w) /\
    action e = create.
Proof.
  run_routes. intros Hres Hst.
  destruct (faults w) as [|[| |] fs] eqn:Hf; simpl in *; simplify_eq/=.
  all: crunch.
  all: try (rewrite ?Hf in *; simpl in *; simplify_eq/=).
  all: crunch.
  all: eexists _, (mkAuditEntry _ _ _ _ _); split; [reflexivity|];
    split_and!; done.
Qed.


(** The handler is its two stretches run back to back. *)
Lemma put_is_two_resumes id b w :
  (t <- Disasters.resume (Disasters.put_received id b) ;; Disasters.resume t) w
  = (resp <- Disasters.put id b ;; ret (Disasters.put_responded resp)) w.
Proof.
  unfold Disasters.put, bind, try_catch. simpl. unfold try_catch, bind, ret.
  destruct (Supabase.disasters_select_single id w) as [[fetched|e] w1]; simpl.
  - unfold bind, try_catch, ret.
    by destruct (Disasters.put_after_fetch id b fetched w1) as [[?|?] ?].
  - unfold Disasters.put_failed, bind, ret, logger_error. done.
Qed.

(** Served one after another, every PUT that answers 200 lengthens
    the trail of its record by one, and nothing else touches it. *)
Lemma put_each_trail id0 requests :
  forall w d,
    disasters w !! id0 = Some d ->
    exists d',
      disasters (snd (Disasters.put_each requests w)) !! id0 = Some d' /\
      length (audit_trail d')
      = (length (audit_trail d)
         + Disasters.successes id0 (fst (Disasters.put_each requests w)))%nat.
Proof.
  induction requests as [|[id b] rest IH]; intros w d Hd; simpl.
  - exists d. split; [done|]. unfold Disasters.successes. simpl. lia.
  - destruct (put_effect id b w) as [_ Heff].
    unfold result, world_after in Heff.
    destruct (Disasters.put id b w) as [c w1]; simpl in Heff.
    assert (Hstep : exists d1,
               disasters w1 !! id0 = Some d1 /\
               length (audit_trail d1)
               = (length (audit_trail d)
                  + (if String.eqb id id0 && Disasters.succeeded c
                     then 1 else 0))%nat).
    { destruct Heff as [[Hno Hsame]|[Hyes (old & new & e & Hold & Hnew & Htrail & _)]].
      - exists d. rewrite Hsame, Hno, andb_false_r. split; [done|lia].
      - rewrite Hyes, andb_true_r.
        destruct (String.eqb_spec id id0) as [->|Hne].
        + exists new. rewrite Hnew, lookup_insert_eq. split; [done|].
          rewrite Htrail, length_app. simpl. congruence.
        + exists d. rewrite Hnew, lookup_insert_ne by done. split; [done|lia]. }
    destruct Hstep as (d1 & Hd1 & Hlen1).
    destruct (IH w1 d1 Hd1) as (d' & Hd' & Hlen').
    destruct (Disasters.put_each rest w1) as [cs w2]; simpl in *.
    exists d'. split; [done|]. rewrite Hlen', Hlen1.
    unfold Disasters.successes. rewrite filter_cons.
    case_decide as Hhead; simpl in Hhead; rewrite ?Hhead; simpl; [lia|].
    apply not_true_is_false in Hhead. rewrite Hhead. lia.
Qed.

End AuditTrailFacts.

Section AuditTrailClaims.




(** C4, as stated, fails: a record is created and two updates, both
    answered 200, are in flight together; each reads the trail before
    the other writes.  Three mutations succeeded and the trail holds
    two entries: the update written first is gone. *)
Lemma overlapping_updates_lose_an_entry :
  let created := Disasters.post Samples.flood (Samples.quiet 0) in
  let tasks := [Disasters.put_received "id-0" Samples.flood_worse;
                Disasters.put_received "id-0" Samples.flood_tagged] in
  let final := Disasters.run [0; 1; 0; 1]%nat tasks (world_after created) in
  match result created with
  | Normal resp => status resp = 201
  | Thrown _ => False
  end /\
  map Disasters.responded_ok (fst final) = [true; true] /\
  (1 + length (filter (fun t => Disasters.responded_ok t = true) (fst final)))%nat
    = 3%nat /\
  length <$> (audit_trail <$> disasters (snd final) !! "id-0") = Some 2%nat /\
  map (fun e => c_description (changes e))
    <$> (audit_trail <$> disasters (snd final) !! "id-0")
    = Some [Some "River overflow"; None].
Proof. vm_compute. repeat split. Qed.

(** C4, amended: when the mutations of a record run one after
    another (a create answered 201, then any number of updates, to
    this or to other records, each served to its response before the
    next starts, whatever the store answers), the length of the trail
    is the number of mutations of the record that succeeded.  Updates
    in flight together can overwrite one another's entry. *)
Theorem sequential_trail_length (b : Disasters.Body)
    (requests : list (string * Disasters.Body)) (w : World)
    (resp : Response) (d : Disaster) (severity : option Json) :
  result (Disasters.post b w) = Normal resp ->
  status resp = 201 ->
  body resp = disaster_body (Some d) severity ->
  let w1 := world_after (Disasters.post b w) in
  let served := fst (Disasters.put_each requests w1) in
  let w2 := snd (Disasters.put_each requests w1) in
  exists d',
    disasters w2 !! d_id d = Some d' /\
    length (audit_trail d') = (1 + Disasters.successes (d_id d) served)%nat.
Proof.
  intros Hres Hst Hbody w1 served w2.
  destruct (post_effect b w resp Hres Hst)
    as (d0 & e & Hbody0 & Htrail & _ & _ & Hnew & _).
  assert (d0 = d) as -> by congruence.
  destruct (put_each_trail (d_id d) requests w1 d) as (d' & Hd' & Hlen).
  { unfold w1. rewrite Hnew. apply lookup_insert_eq. }
  exists d'. split; [done|]. rewrite Hlen, Htrail. done.
Qed.

Lemma sequential_trail_length_witness :
  exists d',
    disasters
      (snd (Disasters.put_each
              [("id-0", Samples.flood_worse); ("id-1", Samples.flood_worse);
               ("id-0", Samples.flood_tagged)]
              (world_after (Disasters.post Samples.flood (Samples.quiet 0)))))
      !! "id-0" = Some d' /\
    length (audit_trail d')
    = (1 + Disasters.successes "id-0"
             (fst (Disasters.put_each
                     [("id-0", Samples.flood_worse); ("id-1", Samples.flood_worse);
                      ("id-0", Samples.flood_tagged)]
                     (world_after
                        (Disasters.post Samples.flood (Samples.quiet 0))))))%nat.
Proof.
  apply (sequential_trail_length Samples.flood
           [("id-0", Samples.flood_worse); ("id-1", Samples.flood_worse);
            ("id-0", Samples.flood_tagged)]
           (Samples.quiet 0)
           (mkResponse 201
              (disaster_body (Some Samples.flood_record)
                             (Some (JStr "Severity: 5/10"))))
           Samples.flood_record (Some (JStr "Severity: 5/10"))).
  - vm_compute. reflexivity.
  - reflexivity.
  - reflexivity.
Defined.

End AuditTrailClaims.

(** ** The proximity search *)

Section GeoFacts.

Local Open Scope R_scope.

Lemma insert_by_distance_perm x rows :
  Permutation (Geo.insert_by_distance x rows) (x :: rows).
Proof.
  induction rows as [|y rest IH]; simpl; [done|].
  destruct (Rle_dec (distance_meters x) (distance_meters y)); [done|].
  rewrite IH. apply perm_swap.
Qed.

Lemma order_by_distance_perm rows :
  Permutation (Geo.order_by_distance rows) rows.
Proof.
  induction rows as [|x rest IH]; simpl; [done|].
  rewrite insert_by_distance_perm. by constructor.
Qed.

Lemma insert_by_distance_sorted x rows :
  Sorted Geo.nearer_or_equal rows ->
  Sorted Geo.nearer_or_equal (Geo.insert_by_distance x rows).
Proof.
  induction 1 as [|y rest Hsorted IH Hhd]; simpl.
  - repeat constructor.
  - destruct (Rle_dec (distance_meters x) (distance_meters y)) as [Hle|Hgt].
    + constructor; [by constructor|by constructor].
    + constructor; [done|].
      destruct rest as [|z rest']; simpl in *.
      * constructor. unfold Geo.nearer_or_equal. lra.
      * destruct (Rle_dec (distance_meters x) (distance_meters z)).
        -- constructor. unfold Geo.nearer_or_equal. lra.
        -- constructor. by inversion Hhd.
Qed.

Lemma order_by_distance_sorted rows :
  StronglySorted Geo.nearer_or_equal (Geo.order_by_distance rows).
Proof.
  apply Sorted_StronglySorted.
  - intros a b c. unfold Geo.nearer_or_equal. lra.
  - induction rows as [|x rest IH]; simpl; [constructor|].
    by apply insert_by_distance_sorted.
Qed.

(** The rows the [WHERE] clause keeps. *)
Lemma select_row_spec la lo rad r row :
  Geo.select_row la lo rad r = Some row <->
  exists p,
    r_location r = Some p /\
    PostGIS.ST_Distance p (mkPoint lo la) <= IZR rad /\
    r_status r = Some active /\
    row = mkNearbyRow r (PostGIS.ST_Distance p (mkPoint lo la)).
Proof.
  unfold Geo.select_row, PostGIS.ST_DWithin, PostGIS.ST_Point, Geo.is_active.
  destruct (r_location r) as [p|].
  - destruct (Rle_dec _ _) as [Hle|Hgt]; simpl.
    + destruct (r_status r) as [[| |]|]; split;
        try (intros [= <-]; by exists p);
        intros (p' & ? & ? & ? & ?); by simplify_eq.
    + split; [done|]. intros (p' & ? & ? & _); by simplify_eq.
  - split; [done|]. intros (p' & ? & _); done.
Qed.

Lemma find_nearby_resources_in la lo rad table row :
  In row (Geo.find_nearby_resources la lo rad table) <->
  exists r, In r table /\ Geo.select_row la lo rad r = Some row.
Proof.
  unfold Geo.find_nearby_resources.
  rewrite <- !list_elem_of_In.
  rewrite order_by_distance_perm, list_elem_of_omap.
  setoid_rewrite list_elem_of_In. done.
Qed.

Lemma planar_one_degree :
  PostGIS.ST_Distance (mkPoint 1 0) (mkPoint 0 0) = 1.
Proof.
  unfold PostGIS.ST_Distance. simpl.
  replace (Rsqr (1 - 0) + Rsqr (0 - 0)) with 1 by (unfold Rsqr; ring).
  apply sqrt_1.
Qed.

Lemma planar_same_point p : PostGIS.ST_Distance p p = 0.
Proof.
  unfold PostGIS.ST_Distance.
  replace (Rsqr (lon p - lon p) + Rsqr (lat p - lat p)) with 0
    by (unfold Rsqr; ring).
  apply sqrt_0.
Qed.

(** One degree of longitude along the equator is [PI / 180] of the
    radius of the sphere: more than a hundred kilometres. *)
Lemma geodesic_one_degree :
  Geodesy.geodesic_distance (mkPoint 1 0) (mkPoint 0 0)
  = Geodesy.EARTH_RADIUS * (PI / 180).
Proof.
  unfold Geodesy.geodesic_distance, Geodesy.radians. simpl.
  replace (0 * PI / 180) with 0 by lra.
  rewrite sin_0, cos_0.
  replace (0 * 0 + 1 * 1 * cos (1 * PI / 180 - 0)) with (cos (PI / 180))
    by (f_equal; [ring_simplify; f_equal; lra]).
  rewrite acos_cos; [done|].
  pose proof PI_RGT_0. lra.
Qed.

Lemma geodesic_one_degree_bound :
  100000 < Geodesy.geodesic_distance (mkPoint 1 0) (mkPoint 0 0).
Proof.
  rewrite geodesic_one_degree. unfold Geodesy.EARTH_RADIUS.
  pose proof PI2_3_2. lra.
Qed.

End GeoFacts.

Section GeoClaims.

Local Open Scope R_scope.

Lemma find_single_depot x y la lo rad :
  PostGIS.ST_Distance (mkPoint x y) (mkPoint lo la) <= IZR rad ->
  Geo.find_nearby_resources la lo rad [Samples.depot "a" x y]
  = [mkNearbyRow (Samples.depot "a" x y)
       (PostGIS.ST_Distance (mkPoint x y) (mkPoint lo la))].
Proof.
  intros Hle. unfold Geo.find_nearby_resources. simpl.
  rewrite (proj2 (select_row_spec la lo rad (Samples.depot "a" x y)
                    (mkNearbyRow (Samples.depot "a" x y)
                       (PostGIS.ST_Distance (mkPoint x y) (mkPoint lo la)))));
    [done|].
  by exists (mkPoint x y).
Qed.

(** C1: the code at the failing input.  Every [distance_meters] the
    function returns is the planar distance between the coordinate
    pairs, a number of degrees; for the resource one degree east of
    the centre on the equator it is 1, where the geodesic distance is
    more than 100000 m. *)
Theorem distance_meters_is_planar_degrees :
  (forall la lo rad table,
      Forall (fun row =>
                exists p, r_location (n_resource row) = Some p /\
                          distance_meters row
                          = sqrt (Rsqr (lon p - lo) + Rsqr (lat p - la)))
             (Geo.find_nearby_resources la lo rad table)) /\
  Geo.find_nearby_resources 0 0 10000 [Samples.depot "a" 1 0]
  = [mkNearbyRow (Samples.depot "a" 1 0) 1] /\
  100000 < Geodesy.geodesic_distance (mkPoint 1 0) (mkPoint 0 0).
Proof.
  split; [|split].
  - intros la lo rad table. apply List.Forall_forall. intros row Hin.
    apply find_nearby_resources_in in Hin as (r & _ & Hsel).
    apply select_row_spec in Hsel as (p & Hp & _ & _ & ->).
    by exists p.
  - rewrite find_single_depot; rewrite planar_one_degree; [done|lra].
  - apply geodesic_one_degree_bound.
Qed.

(** C5, as stated, fails: two active resources at the same point, so
    at equal distance; the scan meets [b] first and the result lists
    [b] before [a], against the order of their ids.  With the same
    rows met in the other order the result is the other way round. *)
Lemma equal_distances_are_not_ordered_by_id :
  Geo.find_nearby_resources 0 0 10 [Samples.depot "b" 0 0; Samples.depot "a" 0 0]
  = [mkNearbyRow (Samples.depot "b" 0 0) 0; mkNearbyRow (Samples.depot "a" 0 0) 0] /\
  ~ Geodesy.id_le (mkNearbyRow (Samples.depot "b" 0 0) 0)
              (mkNearbyRow (Samples.depot "a" 0 0) 0) /\
  Geo.find_nearby_resources 0 0 10 [Samples.depot "a" 0 0; Samples.depot "b" 0 0]
  = [mkNearbyRow (Samples.depot "a" 0 0) 0; mkNearbyRow (Samples.depot "b" 0 0) 0].
Proof.
  assert (Hsel : forall id,
             Geo.select_row 0 0 10 (Samples.depot id 0 0)
             = Some (mkNearbyRow (Samples.depot id 0 0) 0)).
  { intros id. apply select_row_spec. exists (mkPoint 0 0).
    rewrite planar_same_point. repeat split. lra. }
  split; [|split].
  - unfold Geo.find_nearby_resources. simpl. rewrite !Hsel. simpl.
    destruct (Rle_dec 0 0); [done|lra].
  - unfold Geodesy.id_le. simpl. discriminate.
  - unfold Geo.find_nearby_resources. simpl. rewrite !Hsel. simpl.
    destruct (Rle_dec 0 0); [done|lra].
Qed.

(** C5, amended: the result of [find_nearby_resources] is the rows
    the filter keeps, sorted ascending by [distance_meters]; the
    order among rows of equal [distance_meters] is not fixed by
    their ids. *)
Theorem find_nearby_resources_sorted (la lo : R) (rad : Z)
    (table : list Resource) :
  StronglySorted Geo.nearer_or_equal (Geo.find_nearby_resources la lo rad table) /\
  Permutation (Geo.find_nearby_resources la lo rad table)
              (omap (Geo.select_row la lo rad) table).
Proof.
  split.
  - apply order_by_distance_sorted.
  - apply order_by_distance_perm.
Qed.

(** C6: the code at the failing input.  Every returned resource is
    active, and the bound is inclusive, but on the planar distance in
    degrees: with a radius of 1000 the resource one degree east of
    the centre, more than 100000 m away, is returned. *)
Theorem radius_is_compared_in_degrees :
  (forall la lo rad table,
      Forall (fun row => r_status (n_resource row) = Some active)
             (Geo.find_nearby_resources la lo rad table)) /\
  Geo.find_nearby_resources 0 0 1 [Samples.depot "a" 1 0]
  = [mkNearbyRow (Samples.depot "a" 1 0) 1] /\
  Geo.find_nearby_resources 0 0 1000 [Samples.depot "a" 1 0]
  = [mkNearbyRow (Samples.depot "a" 1 0) 1] /\
  IZR 1000 + 99000 < Geodesy.geodesic_distance (mkPoint 1 0) (mkPoint 0 0).
Proof.
  split; [|split; [|split]].
  - intros la lo rad table. apply List.Forall_forall. intros row Hin.
    apply find_nearby_resources_in in Hin as (r & _ & Hsel).
    by apply select_row_spec in Hsel as (p & _ & _ & Hactive & ->).
  - rewrite find_single_depot; rewrite planar_one_degree; [done|lra].
  - rewrite find_single_depot; rewrite planar_one_degree; [done|lra].
  - pose proof geodesic_one_degree_bound. lra.
Qed.

End GeoClaims.

(** ** The resources route *)

Section ResourcesClaims.

(** C9: when the caller gives no centre (the latitude or the
    longitude is missing or empty) and the disaster of the request
    has no location, the handler answers 400 with the message that
    names the missing centre, and never reaches the search. *)
Theorem missing_center_is_rejected
    (geography_out : Point -> string)
    (search_and_respond :
       string -> Resources.Coordinate -> Resources.Coordinate ->
       option string -> M Response)
    (id : string) (q : Resources.Query) (w : World) (d : Disaster) :
  truthy (Resources.q_lat q) = false \/ truthy (Resources.q_lon q) = false ->
  disasters w !! id = Some d ->
  location d = None ->
  faults w = [] ->
  Resources.get geography_out search_and_respond id q w
  = (Normal (mkResponse 400
               (error_body
                  "Location coordinates required or disaster must have location set")),
     w).
Proof.
  intros Hmissing Hd Hloc Hf.
  unfold Resources.get, Resources.disasters_select_location, Supabase.call,
    Supabase.next_fault, Supabase.single, throw_if_error, try_catch, bind, ret.
  assert (negb (truthy (Resources.q_lat q)) || negb (truthy (Resources.q_lon q))
          = true) as ->.
  { destruct Hmissing as [-> | ->]; simpl; [done|apply orb_true_r]. }
  rewrite Hf. simpl. rewrite Hd. simpl. rewrite Hloc. done.
Qed.

Lemma missing_center_is_rejected_witness :
  Resources.get Cases.ewkb
    (fun _ _ _ _ => ret (mkResponse 200 (resources_body [])))
    "id-0" (Resources.mkQuery None None None)
    (world_after (Disasters.post Samples.flood (Samples.quiet 0)))
  = (Normal (mkResponse 400
               (error_body
                  "Location coordinates required or disaster must have location set")),
     world_after (Disasters.post Samples.flood (Samples.quiet 0))).
Proof.
  apply (missing_center_is_rejected Cases.ewkb
           (fun _ _ _ _ => ret (mkResponse 200 (resources_body [])))
           "id-0" (Resources.mkQuery None None None)
           (world_after (Disasters.post Samples.flood (Samples.quiet 0)))
           Samples.flood_record).
  - left. reflexivity.
  - vm_compute. reflexivity.
  - reflexivity.
  - reflexivity.
Defined.

End ResourcesClaims.

(** * Further properties *)

(** ** The cache, operation by operation *)

Section CacheExtras.

Ltac run_cache :=
  unfold CacheService.get, CacheService.set, CacheService.delete,
    CacheService.cleanExpiredCache,
    Supabase.cache_select_single, Supabase.cache_upsert,
    Supabase.cache_delete_eq, Supabase.cache_delete_lt, Supabase.call, Supabase.next_fault,
    Supabase.single, toISOString, throw_if_error, try_catch, bind, ret,
    throw, clock, logger_error, logger_info, logger_debug, result, world_after.

Lemma with_cache_same w : with_cache (cache w) w = w.
Proof. by destruct w. Qed.

Lemma delete_answered key w :
  faults w = [] ->
  CacheService.delete key w = (Normal tt, with_cache (delete key (cache w)) w).
Proof. intros Hf. run_cache. by rewrite Hf. Qed.

(** X1: an answered [delete] removes the key and nothing else; a read
    of the key is then a miss; deleting again, or deleting a key that
    is not there, changes nothing. *)
Theorem delete_removes_only_its_key (key : string) (w : World) :
  faults w = [] ->
  let w' := world_after (CacheService.delete key w) in
  result (CacheService.delete key w) = Normal tt /\
  cache w' !! key = None /\
  (forall k, k <> key -> cache w' !! k = cache w !! k) /\
  result (CacheService.get key w') = Normal JNull /\
  world_after (CacheService.delete key w') = w' /\
  (cache w !! key = None -> w' = w).
Proof.
  intros Hf w'. unfold w'. rewrite delete_answered by done. simpl.
  split; [done|]. split; [apply lookup_delete_eq|].
  split; [intros k Hk; by apply lookup_delete_ne|].
  split.
  { rewrite get_answered by done. simpl. by rewrite lookup_delete_eq. }
  split.
  { rewrite delete_answered by done. simpl.
    unfold with_cache. simpl. f_equal. apply delete_delete_eq. }
  intros Hnone. rewrite delete_id by done. apply with_cache_same.
Qed.


Lemma sweep_answered w :
  faults w = [] -> Z.abs (now w) <= MAX_TIME ->
  world_after (CacheService.cleanExpiredCache w)
  = with_console (console w ++ ["Expired cache entries cleaned"])
      (with_cache (filter (fun kv => ~ (expires_at (snd kv) < now w)) (cache w)) w).
Proof.
  intros Hf Ht. run_cache. simpl.
  destruct (Z.leb_spec (Z.abs (now w)) MAX_TIME); [|lia].
  simpl. by rewrite Hf.
Qed.

(** X2: the sweep removes exactly the entries whose expiry is before
    the clock and keeps the others as they are; no reader can tell:
    [get] answers the same for every key before and after it. *)
Theorem sweep_removes_exactly_the_expired (w : World) :
  faults w = [] ->
  Z.abs (now w) <= MAX_TIME ->
  let w' := world_after (CacheService.cleanExpiredCache w) in
  result (CacheService.cleanExpiredCache w) = Normal tt /\
  (forall k row,
      cache w' !! k = Some row <->
      cache w !! k = Some row /\ now w <= expires_at row) /\
  (forall k, result (CacheService.get k w') = result (CacheService.get k w)).
Proof.
  intros Hf Ht w'.
  assert (Hlook : forall k row,
             cache w' !! k = Some row <->
             cache w !! k = Some row /\ now w <= expires_at row).
  { intros k row. unfold w'. rewrite sweep_answered by done. simpl.
    rewrite map_lookup_filter_Some. simpl. split; intros [? ?]; split; [done|lia|done|lia]. }
  split; [|split; [done|]].
  { run_cache. simpl. destruct (Z.leb_spec (Z.abs (now w)) MAX_TIME); [|lia].
    simpl. by rewrite Hf. }
  intros k.
  assert (Hf' : faults w' = []).
  { unfold w'. rewrite sweep_answered by done. done. }
  assert (Hnow : now w' = now w).
  { unfold w'. rewrite sweep_answered by done. done. }
  rewrite !get_answered by done. rewrite Hnow.
  destruct (cache w !! k) as [row|] eqn:Hrow.
  - destruct (Z.ltb_spec (expires_at row) (now w)) as [Hlt|Hge].
    + destruct (cache w' !! k) as [row'|] eqn:Hrow'; [|done].
      apply Hlook in Hrow' as [Hrow' Hle]. simplify_eq. lia.
    + assert (cache w' !! k = Some row) as -> by (by apply Hlook).
      by destruct (Z.ltb_spec (expires_at row) (now w)); [lia|].
  - destruct (cache w' !! k) as [row'|] eqn:Hrow'; [|done].
    apply Hlook in Hrow' as [Hrow' _]. congruence.
Qed.


(** X3: whatever the store answers, [get] leaves every other key as
    it is, and its own key either as it is or, when the entry had
    expired, removed; a read that returns a value changes no entry. *)
Theorem get_evicts_at_most_its_own_expired_entry (key : string) (w : World) :
  let w' := world_after (CacheService.get key w) in
  (forall k, k <> key -> cache w' !! k = cache w !! k) /\
  (cache w' !! key = cache w !! key \/
   cache w' !! key = None /\
   exists row, cache w !! key = Some row /\ expires_at row < now w) /\
  (result (CacheService.get key w) <> Normal JNull -> cache w' = cache w).
Proof.
  intros w'.
  assert (Hshape :
            (cache w' = cache w \/
             cache w' = delete key (cache w) /\
             exists row, cache w !! key = Some row /\ expires_at row < now w) /\
            (result (CacheService.get key w) <> Normal JNull -> cache w' = cache w)).
  { unfold w'. run_cache.
    repeat (case_match; simpl in *; simplify_eq/=).
    all: split; [|done].
    all: try (by left).
    all: right; split; [done|]; eexists; split; [done|].
    all: by apply Z.ltb_lt. }
  destruct Hshape as [[Hsame|[Hdel Hrow]] Hhit].
  - rewrite Hsame. split; [done|]. split; [by left|done].
  - rewrite Hdel. split; [intros k Hk; by apply lookup_delete_ne|].
    split; [|by rewrite <- Hdel]. right. by rewrite lookup_delete_eq.
Qed.

(** X4: [set] is all or nothing.  Whatever the store answers, the
    table afterwards is either the table as it was or the table with
    the one new row; other keys are never touched; and when the store
    fails the call, or the expiry falls outside the range of a date,
    or the table refuses the row (a null value, an expiry the store
    does not read), nothing is stored and the previous entry stays. *)
Theorem set_is_all_or_nothing (key : string) (v : Json) (ttl : option Z)
    (w : World) :
  let w' := world_after (CacheService.set key v ttl w) in
  let expiry := now w + default 60 ttl * 60 * 1000 in
  (cache w' = cache w \/ cache w' = <[key := mkCacheRow v expiry]> (cache w)) /\
  (forall k, k <> key -> cache w' !! k = cache w !! k) /\
  (MAX_TIME < Z.abs expiry -> cache w' = cache w) /\
  (forall f fs, faults w = f :: fs -> f <> NoFault -> cache w' = cache w) /\
  (v = JNull \/ expiry < Supabase.FIRST_TIMESTAMP \/
   Supabase.LAST_TIMESTAMP < expiry ->
   cache w' = cache w).
Proof.
  intros w' expiry.
  assert (Hshape : cache w' = cache w \/
                   cache w' = <[key := mkCacheRow v expiry]> (cache w)).
  { unfold w', expiry. run_cache. simpl.
    repeat (case_match; unfold ret in *; simpl in *; simplify_eq/=);
      by (left + right). }
  split; [done|]. split.
  { intros k Hk. destruct Hshape as [-> | ->]; [done|].
    by rewrite lookup_insert_ne. }
  split.
  { intros Hbig. apply set_refused. right.
    unfold Supabase.FIRST_TIMESTAMP, Supabase.LAST_TIMESTAMP, MAX_TIME in *.
    fold expiry. lia. }
  split; [|apply set_refused].
  intros f fs Hf Hne. unfold w'. run_cache. simpl.
  destruct (Z.abs _ <=? MAX_TIME); simpl; [|done].
  rewrite Hf. by destruct f.
Qed.

(** X5: a read at the very instant of a [set] that reached the store
    (the store answering, a value that is not null, an expiry the
    store reads) returns the value when the TTL is zero or more, and
    is a miss (the entry being evicted at once) when the TTL is
    negative. *)
Theorem get_right_after_set (key : string) (v : Json) (ttl : Z) (w : World) :
  faults w = [] ->
  v <> JNull ->
  Supabase.FIRST_TIMESTAMP <= now w + ttl * 60 * 1000 <= Supabase.LAST_TIMESTAMP ->
  let w' := world_after (CacheService.set key v (Some ttl) w) in
  (0 <= ttl -> CacheService.get key w' = (Normal v, w')) /\
  (ttl < 0 ->
   result (CacheService.get key w') = Normal JNull /\
   cache (world_after (CacheService.get key w')) !! key = None).
Proof.
  intros Hf Hv Hreads w'. unfold w'. rewrite set_answered by done. simpl.
  split; intros Httl.
  - rewrite get_answered by done. simpl. rewrite lookup_insert_eq. simpl.
    by destruct (Z.ltb_spec (now w + ttl * 60 * 1000) (now w)); [lia|].
  - rewrite get_answered by done. simpl. rewrite lookup_insert_eq. simpl.
    destruct (Z.ltb_spec (now w + ttl * 60 * 1000) (now w)); [|lia].
    simpl. split; [done|]. apply lookup_delete_eq.
Qed.

End CacheExtras.

(** ** The handlers of a disaster *)

Section RouteExtras.

Ltac run_handlers :=
  unfold Disasters.post, Disasters.put, Disasters.put_after_fetch,
    Disasters.put_failed, Disasters.analyzeDisasterSeverity,
    Supabase.disasters_select_single, Supabase.disasters_insert,
    Supabase.disasters_update, Supabase.call, Supabase.next_fault,
    Supabase.single, uuidv4, io_emit, logger_info, logger_warn, logger_error,
    toISOString, throw_if_error, try_catch, bind, ret, throw, clock,
    result, world_after.

Ltac split_cases := repeat (case_match; simpl in *; simplify_eq/=).

(** The row a PUT answered 200 has written. *)
Lemma put_row id b w :
  Disasters.succeeded (result (Disasters.put id b w)) = true ->
  exists old e,
    disasters w !! id = Some old /\
    action e = update /\
    disasters (world_after (Disasters.put id b w))
    = <[id := mkDisaster (d_id old)
               (or_else (Disasters.b_title b) (title old))
               (or_else_opt (Disasters.b_location_name b) (location_name old))
               (match Disasters.point_of (Disasters.b_latitude b)
                                         (Disasters.b_longitude b) with
                | Some p => Some p
                | None => location old
                end)
               (or_else (Disasters.b_description b) (description old))
               (default (tags old) (Disasters.b_tags b))
               (owner_id old)
               (audit_trail old ++ [e])]> (disasters w).
Proof.
  run_handlers.
  destruct (faults w) as [|[| |] fs] eqn:Hf; simpl in *; simplify_eq/=.
  all: destruct (disasters w !! id) as [old|] eqn:Hold; simpl in *;
    simplify_eq/=.
  all: rewrite ?Hf in *; simpl in *.
  all: split_cases.
  all: try (rewrite ?Hf in *; simpl in *; simplify_eq/=).
  all: try (rewrite ?Hold in *; simpl in *; simplify_eq/=).
  all: try done.
  all: intros _; eexists _, (mkAuditEntry _ _ _ _ _); split; [done|]; split; [done|]; done.
Qed.

(** X6: PUT answers 200 or 500 and nothing else: never 404, never 403.
    For an id that is not in the table it answers 500 and the table
    stays as it was; for a record that is there it answers 200
    whenever the store answers and the clock reads a valid date. *)
Theorem put_answers_200_or_500 (id : string) (b : Disasters.Body) (w : World) :
  (exists resp,
      result (Disasters.put id b w) = Normal resp /\
      (status resp = 200 \/
       resp = mkResponse 500 (error_body "Failed to update disaster"))) /\
  (disasters w !! id = None ->
   result (Disasters.put id b w)
   = Normal (mkResponse 500 (error_body "Failed to update disaster")) /\
   disasters (world_after (Disasters.put id b w)) = disasters w) /\
  (forall old,
      disasters w !! id = Some old -> faults w = [] ->
      Z.abs (now w) <= MAX_TIME ->
      Disasters.succeeded (result (Disasters.put id b w)) = true).
Proof.
  run_handlers.
  destruct (faults w) as [|[| |] fs] eqn:Hf; simpl in *; simplify_eq/=.
  all: destruct (disasters w !! id) as [old|] eqn:Hold; simpl in *;
    simplify_eq/=.
  all: rewrite ?Hf in *; simpl in *.
  all: split_cases.
  all: try (rewrite ?Hf in *; simpl in *; simplify_eq/=).
  all: try (rewrite ?Hold in *; simpl in *; simplify_eq/=).
  all: split; [eexists; split; [done|]; by (left + right)|].
  all: split; [done|].
  all: try done.
  all: intros old' _ _ Hvalid; try done.
  all: apply Z.leb_gt in H1 || apply Z.leb_gt in H2 || apply Z.leb_gt in H0
       || apply Z.leb_gt in H; lia.
Qed.

(** X7: a PUT answered 200 never changes the id or the owner; a field
    the body leaves out, or gives as the empty string, keeps its
    stored value, so no update can blank a title, a description or a
    location name; the tags are replaced whenever a list is given,
    the empty list included. *)
Theorem put_keeps_what_the_body_leaves_out (id : string) (b : Disasters.Body)
    (w : World) (old new : Disaster) :
  disasters w !! id = Some old ->
  Disasters.succeeded (result (Disasters.put id b w)) = true ->
  disasters (world_after (Disasters.put id b w)) !! id = Some new ->
  d_id new = d_id old /\ owner_id new = owner_id old /\
  (truthy (Disasters.b_title b) = false -> title new = title old) /\
  (truthy (Disasters.b_description b) = false ->
   description new = description old) /\
  (truthy (Disasters.b_location_name b) = false ->
   location_name new = location_name old) /\
  (Disasters.b_tags b = None -> tags new = tags old) /\
  (forall t, Disasters.b_title b = Some t -> t <> "" -> title new = t) /\
  (forall ts, Disasters.b_tags b = Some ts -> tags new = ts).
Proof.
  intros Hold Hok Hnew.
  destruct (put_row id b w Hok) as (old' & e & Hold' & _ & Hw').
  rewrite Hw', lookup_insert_eq in Hnew. simplify_eq. simpl.
  split; [done|]. split; [done|].
  split. { unfold truthy, or_else. destruct (Disasters.b_title b) as [t|]; [|done].
           by destruct (String.eqb t ""). }
  split. { unfold truthy, or_else.
           destruct (Disasters.b_description b) as [t|]; [|done].
           by destruct (String.eqb t ""). }
  split. { unfold or_else_opt. by intros ->. }
  split. { by intros ->. }
  split. { intros t -> Ht. unfold or_else.
           by destruct (String.eqb_spec t ""). }
  by intros ts ->.
Qed.

Lemma point_of_zero latitude longitude :
  latitude = Some 0%R \/ longitude = Some 0%R ->
  Disasters.point_of latitude longitude = None.
Proof.
  unfold Disasters.point_of, truthy_number.
  intros [-> | ->].
  - destruct longitude; [|done]. by destruct (Req_dec_T 0 0).
  - destruct latitude as [la|]; [|done].
    destruct (Req_dec_T la 0); [done|]. by destruct (Req_dec_T 0 0).
Qed.

Lemma point_of_nonzero la lo :
  la <> 0%R -> lo <> 0%R ->
  Disasters.point_of (Some la) (Some lo) = Some (mkPoint lo la).
Proof.
  intros Hla Hlo. unfold Disasters.point_of, truthy_number.
  destruct (Req_dec_T la 0); [done|]. by destruct (Req_dec_T lo 0).
Qed.

(** The row a POST answered 201 has inserted. *)
Lemma post_row b w resp :
  result (Disasters.post b w) = Normal resp -> status resp = 201 ->
  exists d severity,
    body resp = disaster_body (Some d) severity /\
    location d = Disasters.point_of (Disasters.b_latitude b)
                                    (Disasters.b_longitude b) /\
    disasters (world_after (Disasters.post b w)) !! d_id d = Some d.
Proof.
  run_handlers. intros Hres Hst.
  destruct (faults w) as [|[| |] fs] eqn:Hf; simpl in *; simplify_eq/=.
  all: split_cases.
  all: try (rewrite ?Hf in *; simpl in *; simplify_eq/=).
  all: split_cases.
  all: eexists _, _; split; [reflexivity|]; split; [done|];
    simpl; apply lookup_insert_eq.
Qed.

(** X8: a coordinate of zero counts as no coordinate.  A disaster
    created with latitude 0 or longitude 0 is stored without a
    location, and an update that gives such a pair leaves the stored
    location as it was; a pair with both numbers away from zero is
    stored as the point (longitude, latitude), by a create and by an
    update alike. *)
Theorem zero_coordinate_is_no_coordinate (b : Disasters.Body) (w : World) :
  (Disasters.b_latitude b = Some 0%R \/ Disasters.b_longitude b = Some 0%R ->
   (forall resp d severity,
       result (Disasters.post b w) = Normal resp -> status resp = 201 ->
       body resp = disaster_body (Some d) severity ->
       location d = None) /\
   (forall id old new,
       disasters w !! id = Some old ->
       Disasters.succeeded (result (Disasters.put id b w)) = true ->
       disasters (world_after (Disasters.put id b w)) !! id = Some new ->
       location new = location old)) /\
  (forall la lo,
      Disasters.b_latitude b = Some la -> Disasters.b_longitude b = Some lo ->
      la <> 0%R -> lo <> 0%R ->
      (forall resp d severity,
          result (Disasters.post b w) = Normal resp -> status resp = 201 ->
          body resp = disaster_body (Some d) severity ->
          location d = Some (mkPoint lo la)) /\
      (forall id old new,
          disasters w !! id = Some old ->
          Disasters.succeeded (result (Disasters.put id b w)) = true ->
          disasters (world_after (Disasters.put id b w)) !! id = Some new ->
          location new = Some (mkPoint lo la))).
Proof.
  split.
  - intros Hzero. split.
    + intros resp d severity Hres Hst Hbody.
      destruct (post_row b w resp Hres Hst) as (d' & s' & Hbody' & Hloc & _).
      assert (d' = d) as -> by congruence.
      rewrite Hloc. by apply point_of_zero.
    + intros id old new Hold Hok Hnew.
      destruct (put_row id b w Hok) as (old' & e & Hold' & _ & Hw').
      rewrite Hw', lookup_insert_eq in Hnew. simplify_eq. simpl.
      by rewrite point_of_zero.
  - intros la lo Hla Hlo Hla0 Hlo0. split.
    + intros resp d severity Hres Hst Hbody.
      destruct (post_row b w resp Hres Hst) as (d' & s' & Hbody' & Hloc & _).
      assert (d' = d) as -> by congruence.
      rewrite Hloc, Hla, Hlo. by apply point_of_nonzero.
    + intros id old new Hold Hok Hnew.
      destruct (put_row id b w Hok) as (old' & e & Hold' & _ & Hw').
      rewrite Hw', lookup_insert_eq in Hnew. simplify_eq. simpl.
      by rewrite Hla, Hlo, point_of_nonzero.
Qed.

(** X9: a POST whose title or description is missing or empty is
    answered 400 before anything happens: no id is drawn, nothing is
    written, logged or emitted.  With both there the answer is 201
    or 500, never 400; the table changes only under a 201; and the
    answer is 201 whenever the store answers, the clock reads a valid
    date and the drawn id is not taken. *)
Theorem post_requires_title_and_description (b : Disasters.Body) (w : World) :
  (truthy (Disasters.b_title b) = false \/
   truthy (Disasters.b_description b) = false ->
   Disasters.post b w
   = (Normal (mkResponse 400 (error_body "Title and description are required")),
      w)) /\
  (truthy (Disasters.b_title b) = true ->
   truthy (Disasters.b_description b) = true ->
   exists resp,
     result (Disasters.post b w) = Normal resp /\
     (status resp = 201 \/
      resp = mkResponse 500 (error_body "Failed to create disaster")) /\
     (status resp <> 201 ->
      disasters (world_after (Disasters.post b w)) = disasters w) /\
     (faults w = [] -> Z.abs (now w) <= MAX_TIME ->
      disasters w !! uuids w (uuid_count w) = None ->
      status resp = 201)).
Proof.
  split.
  - intros Hmissing. unfold Disasters.post, try_catch, ret.
    assert (negb (truthy (Disasters.b_title b))
            || negb (truthy (Disasters.b_description b)) = true) as ->; [|done].
    destruct Hmissing as [-> | ->]; [done|apply orb_true_r].
  - intros Htitle Hdescription. run_handlers.
    rewrite Htitle, Hdescription. simpl.
    destruct (faults w) as [|[| |] fs] eqn:Hf; simpl in *; simplify_eq/=.
    all: split_cases.
    all: try (rewrite ?Hf in *; simpl in *; simplify_eq/=).
    all: split_cases.
    all: eexists; split; [reflexivity|]; simpl.
    all: split; [by (left + right)|].
    all: split; [done|].
    all: try done.
    all: intros _ Hvalid Hfresh; try congruence.
    all: repeat match goal with
           | H : (_ <=? _) = false |- _ => apply Z.leb_gt in H
           end; lia.
Qed.

(** X10: a handler writes at most one record.  Whatever the store
    answers, POST leaves every record that was already there as it
    was (a drawn id that is taken is answered 500), and PUT leaves
    every record but its own as it was. *)
Theorem handlers_leave_other_records_alone (id : string) (b : Disasters.Body)
    (w : World) :
  (forall id' d, disasters w !! id' = Some d ->
                 disasters (world_after (Disasters.post b w)) !! id' = Some d) /\
  (forall id', id' <> id ->
               disasters (world_after (Disasters.put id b w)) !! id'
               = disasters w !! id').
Proof.
  split.
  - intros id' d Hd.
    assert (Hshape :
              disasters (world_after (Disasters.post b w)) = disasters w \/
              exists u x, disasters w !! u = None /\
                          disasters (world_after (Disasters.post b w))
                          = <[u := x]> (disasters w)).
    { run_handlers.
      destruct (faults w) as [|[| |] fs] eqn:Hf; simpl in *; simplify_eq/=.
      all: split_cases.
      all: try (rewrite ?Hf in *; simpl in *; simplify_eq/=).
      all: split_cases.
      all: try (by left).
      all: right; eexists _, _; split; done. }
    destruct Hshape as [-> | (u & x & Hfresh & ->)]; [done|].
    rewrite lookup_insert_ne; [done|]. intros ->. congruence.
  - intros id' Hne.
    destruct (put_effect id b w) as [_ [[_ ->]|[_ (old & new & e & _ & -> & _)]]];
      [done|].
    by rewrite lookup_insert_ne.
Qed.

(** X11: served one after another, updates only ever append: after any
    list of PUTs, whatever the store answers, the trail of a record is
    the trail it had followed by [update] entries. *)
Theorem served_in_turn_the_trail_only_grows (id0 : string)
    (requests : list (string * Disasters.Body)) (w : World) (d : Disaster) :
  disasters w !! id0 = Some d ->
  exists d' added,
    disasters (snd (Disasters.put_each requests w)) !! id0 = Some d' /\
    audit_trail d' = (audit_trail d ++ added)%list /\
    Forall (fun e => action e = update) added.
Proof.
  revert w d. induction requests as [|[id b] rest IH]; intros w d Hd; simpl.
  - exists d, []. by rewrite app_nil_r.
  - destruct (put_effect id b w) as [_ Heff].
    unfold result, world_after in Heff.
    destruct (Disasters.put id b w) as [c w1]; simpl in Heff.
    assert (Hstep : exists d1 added1,
               disasters w1 !! id0 = Some d1 /\
               audit_trail d1 = (audit_trail d ++ added1)%list /\
               Forall (fun e => action e = update) added1).
    { destruct Heff as [[_ Hsame]|[_ (old & new & e & Hold & Hnew & Htrail & Hact)]].
      - exists d, []. rewrite Hsame, app_nil_r. done.
      - destruct (decide (id = id0)) as [->|Hne].
        + exists new, [e]. rewrite Hnew, lookup_insert_eq.
          split; [done|]. split; [congruence|]. by constructor.
        + exists d, []. rewrite Hnew, lookup_insert_ne, app_nil_r by done. done. }
    destruct Hstep as (d1 & added1 & Hd1 & Htrail1 & Hall1).
    destruct (IH w1 d1 Hd1) as (d' & added & Hd' & Htrail & Hall).
    destruct (Disasters.put_each rest w1) as [cs w2]; simpl in *.
    exists d', (added1 ++ added)%list. split; [done|].
    split; [by rewrite Htrail, Htrail1, app_assoc|].
    by apply Forall_app.
Qed.

End RouteExtras.

(** ** Updates in flight together *)

Section ScheduleExtras.

Ltac run_stretch :=
  unfold Disasters.resume, Disasters.post, Disasters.put, Disasters.put_after_fetch,
    Disasters.put_failed, Disasters.analyzeDisasterSeverity,
    Supabase.disasters_select_single, Supabase.disasters_insert,
    Supabase.disasters_update, Supabase.call, Supabase.next_fault,
    Supabase.single, uuidv4, io_emit, logger_info, logger_warn, logger_error,
    toISOString, throw_if_error, try_catch, bind, ret, throw, clock,
    result, world_after.

Ltac split_stretch := repeat (case_match; simpl in *; simplify_eq/=).

(** The first stretch of a PUT reads and writes nothing. *)
Lemma resume_received id b w :
  exists t' w',
    Disasters.resume (Disasters.put_received id b) w = (Normal t', w') /\
    disasters w' = disasters w /\
    ((exists fetched,
         t' = Disasters.put_holding id b fetched /\
         forall x, data fetched = Some x -> disasters w !! id = Some x) \/
     (exists resp, t' = Disasters.put_responded resp /\ status resp = 500)).
Proof.
  run_stretch.
  destruct (faults w) as [|[| |] fs] eqn:Hf; simpl.
  all: eexists _, _; split; [done|]; split; [done|].
  all: try (right; eexists; split; done).
  all: left; eexists; split; [done|].
  all: intros x; destruct (disasters w !! id); simpl; congruence.
Qed.

(** The second stretch writes the trail it holds plus one entry, or
    nothing. *)
Lemma resume_holding id b fetched w :
  exists resp w',
    Disasters.resume (Disasters.put_holding id b fetched) w
    = (Normal (Disasters.put_responded resp), w') /\
    ((status resp <> 200 /\ disasters w' = disasters w) \/
     (status resp = 200 /\
      exists x old new e,
        data fetched = Some x /\
        disasters w !! id = Some old /\
        disasters w' = <[id := new]> (disasters w) /\
        audit_trail new = (audit_trail x ++ [e])%list /\
        action e = update)).
Proof.
  run_stretch.
  destruct fetched as [[x|] [code|]]; simpl.
  all: try (eexists _, _; split; [done|]; left; done).
  destruct (faults w) as [|[| |] fs] eqn:Hf; simpl in *; simplify_eq/=.
  all: destruct (disasters w !! id) as [old|] eqn:Hold; simpl in *;
    simplify_eq/=.
  all: split_stretch.
  all: try (rewrite ?Hf in *; simpl in *; simplify_eq/=).
  all: try (rewrite ?Hold in *; simpl in *; simplify_eq/=).
  all: split_stretch.
  all: eexists _, _; (split; [done|]).
  all: try (left; done).
  all: right; split; [done|]; eexists _, _, _, (mkAuditEntry _ _ _ _ _);
    split_and!; done.
Qed.


Lemma completed_insert tasks i t t' :
  tasks !! i = Some t ->
  Disasters.responded_ok t = false ->
  Schedules.completed (<[i := t']> tasks)
  = (Schedules.completed tasks + (if Disasters.responded_ok t' then 1 else 0))%nat.
Proof.
  unfold Schedules.completed. revert i.
  induction tasks as [|u tasks IH]; intros [|i] Hi Hno; simplify_eq/=.
  - rewrite !filter_cons.
    rewrite (decide_False (P := Disasters.responded_ok t = true)) by congruence.
    destruct (Disasters.responded_ok t') eqn:Hok.
    + rewrite decide_True by done. simpl. lia.
    + rewrite decide_False by congruence. lia.
  - rewrite !filter_cons. specialize (IH i Hi Hno).
    case_decide; simpl; lia.
Qed.

Section Invariant.

Variable id0 : string.
Variable e0 : AuditEntry.
Variable len0 : nat.

Lemma sound_trail_mono n m trail :
  (n <= m)%nat -> Schedules.sound_trail e0 n trail -> Schedules.sound_trail e0 m trail.
Proof. intros Hle [Hhd Hlen]. split; [done|lia]. Qed.

Lemma held_trail_mono n m t :
  (n <= m)%nat ->
  Schedules.held_trail id0 (Schedules.sound_trail e0 n) t -> Schedules.held_trail id0 (Schedules.sound_trail e0 m) t.
Proof.
  intros Hle. destruct t; simpl; try done.
  intros H Hid x Hx. eapply sound_trail_mono; eauto.
Qed.

Lemma resume_keeps_invariant tasks w i t t' w' :
  tasks !! i = Some t ->
  Disasters.resume t w = (Normal t', w') ->
  Schedules.invariant id0 e0 len0 tasks w ->
  Schedules.invariant id0 e0 len0 (<[i := t']> tasks) w'.
Proof.
  unfold Schedules.invariant. intros Hi Hstep [(d & Hd & Hsound) Hall].
  destruct t as [id b|id b fetched|resp].
  - destruct (resume_received id b w) as (t1 & w1 & Hstep1 & Hsame & Hkind).
    rewrite Hstep in Hstep1. simplify_eq.
    assert (Hcount : Schedules.completed (<[i := t1]> tasks) = Schedules.completed tasks).
    { rewrite (completed_insert tasks i _ t1 Hi) by done.
      destruct Hkind as [(fetched & -> & _)|(resp & -> & Hst)]; simpl; [lia|].
      rewrite Hst. simpl. lia. }
    rewrite Hcount. split.
    + exists d. by rewrite Hsame.
    + apply Forall_insert; [done|].
      destruct Hkind as [(fetched & -> & Hread)|(resp & -> & _)]; simpl; [|done].
      intros -> x Hx. apply Hread in Hx. by simplify_eq.
  - destruct (resume_holding id b fetched w) as (resp & w1 & Hstep1 & Hkind).
    rewrite Hstep in Hstep1. simplify_eq.
    assert (Hheld : Schedules.held_trail id0 (Schedules.sound_trail e0 (len0 + Schedules.completed tasks))
                      (Disasters.put_holding id b fetched)).
    { eapply Forall_lookup_1 in Hall; eauto. }
    rewrite (completed_insert tasks i _ _ Hi) by done. simpl.
    destruct Hkind as [[Hst Hsame]|[Hst (x & old & new & e & Hx & Hold & Hnew & Htrail & _)]].
    + assert ((status resp =? 200) = false) as -> by (by apply Z.eqb_neq).
      rewrite Nat.add_0_r. split.
      * exists d. by rewrite Hsame.
      * by apply Forall_insert.
    + rewrite Hst. simpl. split.
      * destruct (decide (id = id0)) as [->|Hne].
        -- exists new. rewrite Hnew, lookup_insert_eq. split; [done|].
           destruct (Hheld eq_refl x Hx) as [[rest Hrest] Hlen].
           rewrite Htrail. split.
           ++ exists (rest ++ [e])%list. by rewrite Hrest.
           ++ rewrite length_app. simpl. lia.
        -- exists d. rewrite Hnew, lookup_insert_ne by done. split; [done|].
           eapply sound_trail_mono; [|done]. lia.
      * apply Forall_insert; [|done].
        eapply Forall_impl; [done|]. intros t. apply held_trail_mono. lia.
  - simpl in Hstep. unfold ret in Hstep. simplify_eq.
    rewrite list_insert_id by done. split; [by exists d|done].
Qed.

Lemma run_keeps_invariant schedule :
  forall tasks w,
    Schedules.invariant id0 e0 len0 tasks w ->
    Schedules.invariant id0 e0 len0 (fst (Disasters.run schedule tasks w))
                       (snd (Disasters.run schedule tasks w)).
Proof.
  induction schedule as [|i schedule IH]; intros tasks w Hinv; simpl; [done|].
  destruct (tasks !! i) as [t|] eqn:Hi; [|by apply IH].
  destruct (Disasters.resume t w) as [[t'|e] w'] eqn:Hstep.
  - apply IH. by eapply resume_keeps_invariant.
  - exfalso. destruct t as [id b|id b fetched|resp].
    + destruct (resume_received id b w) as (? & ? & ? & _). congruence.
    + destruct (resume_holding id b fetched w) as (? & ? & ? & _). congruence.
    + done.
Qed.

Lemma run_from_requests schedule requests w d rest :
  disasters w !! id0 = Some d ->
  audit_trail d = e0 :: rest ->
  len0 = length (audit_trail d) ->
  let final :=
    Disasters.run schedule
      (map (fun r => Disasters.put_received (fst r) (snd r)) requests) w in
  exists d' rest',
    disasters (snd final) !! id0 = Some d' /\
    audit_trail d' = e0 :: rest' /\
    (length (audit_trail d') <= len0 + Schedules.completed (fst final))%nat.
Proof.
  intros Hd Htrail Hlen final.
  destruct (run_keeps_invariant schedule
              (map (fun r => Disasters.put_received (fst r) (snd r)) requests) w)
    as [(d' & Hd' & [rest' Hrest'] & Hlen') _].
  { split.
    - exists d. split; [done|]. split; [by exists rest|lia].
    - apply Forall_forall. intros t Ht.
      apply list_elem_of_fmap in Ht as (r & -> & _). done. }
  by exists d', rest'.
Qed.

End Invariant.

(** X12: whatever the order in which the stretches of any number of
    PUTs are run, and whatever the store answers, the record stays in
    the table, the first entry of its trail (the [create] entry) is
    never lost or displaced, and the trail never holds more entries
    than it had plus the number of PUTs answered 200: entries can be
    lost to an overlapping write, none is invented. *)
Theorem every_schedule_keeps_the_first_entry (schedule : list nat)
    (requests : list (string * Disasters.Body)) (w : World) (id0 : string)
    (d : Disaster) (e0 : AuditEntry) (rest : list AuditEntry) :
  disasters w !! id0 = Some d ->
  audit_trail d = e0 :: rest ->
  let final :=
    Disasters.run schedule
      (map (fun r => Disasters.put_received (fst r) (snd r)) requests) w in
  exists d' rest',
    disasters (snd final) !! id0 = Some d' /\
    audit_trail d' = e0 :: rest' /\
    (length (audit_trail d') <= length (audit_trail d) + Schedules.completed (fst final))%nat.
Proof.
  intros Hd Htrail. by eapply run_from_requests.
Qed.

End ScheduleExtras.

(** ** The search, beyond its order *)

Section GeoExtras.

Local Open Scope R_scope.

Lemma planar_nonneg a b : 0 <= PostGIS.ST_Distance a b.
Proof. unfold PostGIS.ST_Distance. apply sqrt_pos. Qed.

(** X13: every distance the search returns lies between zero and the
    radius: no row comes back from farther than the radius asked
    for, in the planar measure the function uses. *)
Theorem returned_distances_are_within_the_radius (la lo : R) (rad : Z)
    (table : list Resource) :
  Forall (fun row => 0 <= distance_meters row <= IZR rad)
         (Geo.find_nearby_resources la lo rad table).
Proof.
  apply List.Forall_forall. intros row Hin.
  apply find_nearby_resources_in in Hin as (r & _ & Hsel).
  apply select_row_spec in Hsel as (p & _ & Hle & _ & ->). simpl.
  split; [apply planar_nonneg|done].
Qed.


(** X15: the first row is a nearest one: no active resource with a
    location within the radius is nearer to the centre than the
    first row of the result. *)
Theorem first_row_is_nearest (la lo : R) (rad : Z) (table : list Resource)
    (row : NearbyRow) (rows : list NearbyRow) (r : Resource) (p : Point) :
  Geo.find_nearby_resources la lo rad table = row :: rows ->
  In r table ->
  r_location r = Some p ->
  r_status r = Some active ->
  PostGIS.ST_Distance p (mkPoint lo la) <= IZR rad ->
  distance_meters row <= PostGIS.ST_Distance p (mkPoint lo la).
Proof.
  intros Hfind Hin Hp Hact Hd.
  assert (Hrow : In (mkNearbyRow r (PostGIS.ST_Distance p (mkPoint lo la)))
                    (Geo.find_nearby_resources la lo rad table)).
  { apply (proj2 (find_nearby_resources_in la lo rad table _)).
    exists r. split; [done|].
    apply (proj2 (select_row_spec la lo rad r _)). by exists p. }
  assert (Hsorted : StronglySorted Geo.nearer_or_equal
                      (Geo.find_nearby_resources la lo rad table))
    by apply order_by_distance_sorted.
  rewrite Hfind in Hrow. rewrite Hfind in Hsorted.
  apply StronglySorted_inv in Hsorted as [_ Hhd].
  destruct Hrow as [Heq|Hrest]; [rewrite Heq; simpl; lra|].
  rewrite List.Forall_forall in Hhd. apply (Hhd _ Hrest).
Qed.

(** Two sorted lists with the same rows, no two at the same distance,
    are the same list. *)
Lemma sorted_by_distinct_distances_unique (l1 l2 : list NearbyRow) :
  StronglySorted Geo.nearer_or_equal l1 ->
  StronglySorted Geo.nearer_or_equal l2 ->
  Permutation l1 l2 ->
  NoDup (map distance_meters l1) ->
  l1 = l2.
Proof.
  revert l2. induction l1 as [|a l1 IH]; intros l2 Hs1 Hs2 Hperm Hnd.
  - by apply Permutation_nil in Hperm.
  - destruct l2 as [|b l2].
    { symmetry in Hperm. by apply Permutation_nil in Hperm. }
    apply StronglySorted_inv in Hs1 as [Hs1 Ha].
    apply StronglySorted_inv in Hs2 as [Hs2 Hb].
    rewrite List.Forall_forall in Ha, Hb.
    assert (Hab : a = b).
    { assert (Hbin : In b (a :: l1)).
      { eapply Permutation_in; [symmetry; exact Hperm|by left]. }
      assert (Hain : In a (b :: l2)).
      { eapply Permutation_in; [exact Hperm|by left]. }
      destruct Hbin as [->|Hbin]; [done|].
      destruct Hain as [->|Hain]; [done|].
      exfalso.
      pose proof (Ha _ Hbin) as H1. pose proof (Hb _ Hain) as H2.
      unfold Geo.nearer_or_equal in H1, H2.
      assert (Heq : distance_meters a = distance_meters b) by lra.
      simpl in Hnd. apply NoDup_cons in Hnd as [Hnot _].
      apply Hnot. rewrite Heq. apply list_elem_of_In. by apply in_map. }
    subst b. f_equal. apply IH; try done.
    + by eapply Permutation_cons_inv.
    + simpl in Hnd. by apply NoDup_cons in Hnd as [_ ?].
Qed.

(** X16: when no two of the selected rows are at the same distance, the
    result does not depend on the order in which the scan meets the
    rows of the table. *)
Theorem distinct_distances_fix_the_order (la lo : R) (rad : Z)
    (table table' : list Resource) :
  Permutation table table' ->
  NoDup (map distance_meters (omap (Geo.select_row la lo rad) table)) ->
  Geo.find_nearby_resources la lo rad table
  = Geo.find_nearby_resources la lo rad table'.
Proof.
  intros Hperm Hnd.
  assert (Hsel : Permutation (omap (Geo.select_row la lo rad) table)
                             (omap (Geo.select_row la lo rad) table')).
  { clear Hnd. induction Hperm; simpl.
    - done.
    - destruct (Geo.select_row la lo rad x); [by constructor|done].
    - destruct (Geo.select_row la lo rad x), (Geo.select_row la lo rad y);
        try done; by constructor.
    - by etrans. }
  apply sorted_by_distinct_distances_unique.
  - apply order_by_distance_sorted.
  - apply order_by_distance_sorted.
  - unfold Geo.find_nearby_resources.
    rewrite !order_by_distance_perm. done.
  - unfold Geo.find_nearby_resources.
    assert (Hmap : Permutation
                     (map distance_meters
                        (Geo.order_by_distance
                           (omap (Geo.select_row la lo rad) table)))
                     (map distance_meters
                        (omap (Geo.select_row la lo rad) table)))
      by apply Permutation_map, order_by_distance_perm.
    by rewrite Hmap.
Qed.

End GeoExtras.

(** ** Reading a record, choosing a centre *)

Section ReadExtras.

Ltac run_read :=
  unfold Disasters.post, Disasters.put, Disasters.put_after_fetch,
    Disasters.put_failed, Disasters.analyzeDisasterSeverity,
    Supabase.disasters_select_single, Supabase.disasters_insert,
    Supabase.disasters_update, Supabase.call, Supabase.next_fault,
    Supabase.single, uuidv4, io_emit, logger_info, logger_warn, logger_error,
    toISOString, throw_if_error, try_catch, bind, ret, throw, clock,
    result, world_after.

Ltac split_read := repeat (case_match; simpl in *; simplify_eq/=).

Lemma read_answered id w :
  faults w = [] ->
  DisasterRead.get id w
  = match disasters w !! id with
    | Some d =>
        (Normal (DisasterRead.mkResponse 200 (DisasterRead.disaster_body (Some d))),
         with_console (console w ++ ["Disaster retrieved"]) w)
    | None =>
        (Normal (DisasterRead.mkResponse 500
                   (DisasterRead.error_body "Failed to retrieve disaster")),
         with_console (console w ++ ["Error retrieving disaster:"]) w)
    end.
Proof.
  intros Hf. unfold DisasterRead.get. run_read. rewrite Hf. simpl.
  by destruct (disasters w !! id).
Qed.

Lemma post_keeps_no_fault b w :
  faults w = [] -> faults (world_after (Disasters.post b w)) = [].
Proof.
  intros Hf. run_read. split_read; rewrite ?Hf in *; simplify_eq/=; done.
Qed.

Lemma put_keeps_no_fault id b w :
  faults w = [] -> faults (world_after (Disasters.put id b w)) = [].
Proof.
  intros Hf. run_read. rewrite Hf. simpl.
  destruct (disasters w !! id) as [old|] eqn:Hold; simpl; [|done].
  split_read; rewrite ?Hf in *; simplify_eq/=; done.
Qed.

(** X25: what was written is what is read.  With the store answering,
    the record a POST answered 201 with is the record GET returns for
    its id, and after a PUT answered 200 GET returns the record with
    the trail it had before followed by the one new entry. *)
Theorem read_returns_what_was_written (b : Disasters.Body) (w : World) :
  faults w = [] ->
  (forall resp d severity,
      result (Disasters.post b w) = Normal resp -> status resp = 201 ->
      body resp = disaster_body (Some d) severity ->
      result (DisasterRead.get (d_id d) (world_after (Disasters.post b w)))
      = Normal (DisasterRead.mkResponse 200 (DisasterRead.disaster_body (Some d)))) /\
  (forall id old,
      disasters w !! id = Some old ->
      Disasters.succeeded (result (Disasters.put id b w)) = true ->
      exists new e,
        result (DisasterRead.get id (world_after (Disasters.put id b w)))
        = Normal (DisasterRead.mkResponse 200
                    (DisasterRead.disaster_body (Some new))) /\
        audit_trail new = (audit_trail old ++ [e])%list).
Proof.
  intros Hf. split.
  - intros resp d severity Hres Hst Hbody.
    destruct (post_effect b w resp Hres Hst)
      as (d' & e & Hbody' & _ & _ & _ & Hnew & _).
    assert (d' = d) as -> by congruence.
    rewrite read_answered by (by apply post_keeps_no_fault).
    by rewrite Hnew, lookup_insert_eq.
  - intros id old Hold Hok.
    destruct (put_effect id b w) as [_ [[Hno _]|[_ Hyes]]]; [congruence|].
    destruct Hyes as (old' & new & e & Hold' & Hnew & Htrail & _).
    simplify_eq. exists new, e.
    rewrite read_answered by (by apply put_keeps_no_fault).
    by rewrite Hnew, lookup_insert_eq.
Qed.

(** X26: GET of one record answers 200 or 500, never 404: an id that
    is not in the table, like a store that fails, is answered 500
    ("Failed to retrieve disaster"); and GET changes no table. *)
Theorem read_answers_200_or_500 (id : string) (w : World) :
  (exists resp,
      result (DisasterRead.get id w) = Normal resp /\
      (DisasterRead.status resp = 200 \/
       resp = DisasterRead.mkResponse 500
                (DisasterRead.error_body "Failed to retrieve disaster"))) /\
  (disasters w !! id = None ->
   result (DisasterRead.get id w)
   = Normal (DisasterRead.mkResponse 500
               (DisasterRead.error_body "Failed to retrieve disaster"))) /\
  disasters (world_after (DisasterRead.get id w)) = disasters w /\
  cache (world_after (DisasterRead.get id w)) = cache w.
Proof.
  unfold DisasterRead.get. run_read.
  destruct (faults w) as [|[| |] fs]; simpl.
  all: destruct (disasters w !! id); simpl.
  all: split; [eexists; split; [done|]; by (left + right)|]; done.
Qed.

End ReadExtras.

Section CentreExtras.

(** A hexadecimal text has no place where the pattern matches. *)
Lemma hexadecimal_has_no_match text :
  Resources.hexadecimal text = true -> Resources.locationMatch text = None.
Proof.
  induction text as [|c rest IH]; [done|].
  intros [Hc Hrest]%andb_true_iff.
  cbn [Resources.locationMatch Resources.after_prefix].
  destruct (Ascii.eqb_spec "P" c) as [<-|_]; [done|]. simpl.
  by apply IH.
Qed.

Lemma word_run x rest :
  Resources.spaceless x = true ->
  Resources.word (x ++ String " " rest) = (x, String " " rest).
Proof.
  induction x as [|c x IH]; [done|].
  intros [Hc Hx]%andb_true_iff.
  change (String c x ++ String " " rest) with (String c (x ++ String " " rest)).
  cbn [Resources.word]. destruct (Ascii.eqb c " "); [done|].
  by rewrite IH.
Qed.

Lemma word_to_the_end x :
  Resources.spaceless x = true -> Resources.word x = (x, "").
Proof.
  induction x as [|c x IH]; [done|].
  intros [Hc Hx]%andb_true_iff.
  cbn [Resources.word]. destruct (Ascii.eqb c " "); [done|].
  by rewrite IH.
Qed.

Lemma spaceless_app x y :
  Resources.spaceless x = true -> Resources.spaceless y = true ->
  Resources.spaceless (x ++ y) = true.
Proof.
  intros Hx Hy. induction x as [|c x IH]; [done|].
  apply andb_true_iff in Hx as [Hc Hx].
  change (String c x ++ y) with (String c (x ++ y)).
  cbn [Resources.spaceless]. rewrite Hc. by apply IH.
Qed.

Lemma before_last_paren_some y rest g :
  Resources.before_last_paren rest = Some g ->
  Resources.before_last_paren (y ++ rest) = Some (y ++ g).
Proof.
  intros Hrest. induction y as [|c y IH]; [done|].
  change (String c y ++ rest) with (String c (y ++ rest)).
  change (String c y ++ g) with (String c (y ++ g)).
  cbn [Resources.before_last_paren]. by rewrite IH.
Qed.

Lemma string_app_empty (text : string) : text ++ "" = text.
Proof.
  induction text as [|c text IH]; [done|].
  change (String c text ++ "") with (String c (text ++ "")). by rewrite IH.
Qed.

(** The pattern reads the text of a point, [POINT(x y)], as it was
    written for: the first group is [x], the second [y]. *)
Lemma locationMatch_reads_a_point x y :
  x <> "" -> y <> "" ->
  Resources.spaceless x = true -> Resources.spaceless y = true ->
  Resources.locationMatch ("POINT(" ++ x ++ " " ++ y ++ ")") = Some (x, y).
Proof.
  intros Hx Hy Hsx Hsy.
  change ("POINT(" ++ x ++ " " ++ y ++ ")")
    with (String "P" (String "O" (String "I" (String "N" (String "T"
            (String "(" (x ++ String " " (y ++ ")")))))))).
  cbn [Resources.locationMatch Resources.after_prefix Ascii.eqb Bool.eqb
       from_option].
  unfold Resources.match_groups.
  rewrite word_run by done.
  destruct x as [|c x]; [done|].
  rewrite word_to_the_end by (by apply spaceless_app).
  cbn [fst].
  rewrite (before_last_paren_some y ")" "") by done.
  destruct y as [|d y]; [done|].
  change (String d y ++ "") with (String d (y ++ "")).
  by rewrite string_app_empty.
Qed.

(** X17: which centre the search uses.  When both [lat] and [lon] are
    given the handler goes straight to the search with them and
    never looks the disaster up, so the id need not exist.  When
    either is missing the handler reads the location of the disaster
    and looks for the pattern [POINT(x y)] in its text.  The store
    sends a geography as a hexadecimal text, in which the pattern
    finds nothing, and then the search runs with the coordinates of
    the caller as they came, the missing one included.  In a text of
    the form [POINT(x y)] the pattern finds [x] and [y], and the
    search runs with [y] as the latitude and [x] as the longitude. *)
Theorem which_centre_the_search_uses
    (geography_out : Point -> string)
    (search_and_respond :
       string -> Resources.Coordinate -> Resources.Coordinate ->
       option string -> M Response)
    (id : string) (radius : option string) (w w' : World) (resp : Response) :
  (forall la lo,
      la <> "" -> lo <> "" ->
      search_and_respond id (Resources.from_query (Some la))
                         (Resources.from_query (Some lo)) radius w
      = (Normal resp, w') ->
      Resources.get geography_out search_and_respond id
                    (Resources.mkQuery (Some la) (Some lo) radius) w
      = (Normal resp, w')) /\
  (forall q d p,
      truthy (Resources.q_lat q) = false \/ truthy (Resources.q_lon q) = false ->
      Resources.q_radius q = radius ->
      faults w = [] ->
      disasters w !! id = Some d ->
      location d = Some p ->
      geography_out p <> "" ->
      Resources.hexadecimal (geography_out p) = true ->
      search_and_respond id (Resources.from_query (Resources.q_lat q))
                         (Resources.from_query (Resources.q_lon q)) radius w
      = (Normal resp, w') ->
      Resources.get geography_out search_and_respond id q w = (Normal resp, w')) /\
  (forall q d p x y,
      truthy (Resources.q_lat q) = false \/ truthy (Resources.q_lon q) = false ->
      Resources.q_radius q = radius ->
      faults w = [] ->
      disasters w !! id = Some d ->
      location d = Some p ->
      geography_out p = "POINT(" ++ x ++ " " ++ y ++ ")" ->
      x <> "" -> y <> "" ->
      Resources.spaceless x = true -> Resources.spaceless y = true ->
      search_and_respond id (Resources.from_disaster y)
                         (Resources.from_disaster x) radius w
      = (Normal resp, w') ->
      Resources.get geography_out search_and_respond id q w = (Normal resp, w')).
Proof.
  split; [|split].
  - intros la lo Hla Hlo Hsearch.
    unfold Resources.get, try_catch. simpl.
    destruct (String.eqb_spec la ""); [done|].
    destruct (String.eqb_spec lo ""); [done|]. simpl.
    by rewrite Hsearch.
  - intros q d p Hmissing <- Hf Hd Hloc Hsome Hhex Hsearch.
    unfold Resources.get, Resources.disasters_select_location, Supabase.call,
      Supabase.next_fault, Supabase.single, throw_if_error, try_catch, bind, ret.
    assert (negb (truthy (Resources.q_lat q)) || negb (truthy (Resources.q_lon q))
            = true) as ->.
    { destruct Hmissing as [-> | ->]; simpl; [done|apply orb_true_r]. }
    rewrite Hf. simpl. rewrite Hd. simpl. rewrite Hloc. simpl.
    destruct (String.eqb_spec (geography_out p) ""); [done|].
    rewrite hexadecimal_has_no_match by done.
    by rewrite Hsearch.
  - intros q d p x y Hmissing <- Hf Hd Hloc Htext Hx Hy Hsx Hsy Hsearch.
    unfold Resources.get, Resources.disasters_select_location, Supabase.call,
      Supabase.next_fault, Supabase.single, throw_if_error, try_catch, bind, ret.
    assert (negb (truthy (Resources.q_lat q)) || negb (truthy (Resources.q_lon q))
            = true) as ->.
    { destruct Hmissing as [-> | ->]; simpl; [done|apply orb_true_r]. }
    rewrite Hf. simpl. rewrite Hd. simpl. rewrite Hloc. simpl.
    rewrite Htext.
    destruct (String.eqb_spec ("POINT(" ++ x ++ " " ++ y ++ ")") ""); [done|].
    rewrite locationMatch_reads_a_point by done.
    by rewrite Hsearch.
Qed.

(** X18: when the centre has to come from the disaster and the lookup
    fails (the id is not in the table, or the store fails the call),
    the handler answers 500 ("Failed to fetch resources") and the
    search is never run. *)
Theorem unknown_disaster_is_a_server_error
    (geography_out : Point -> string)
    (search_and_respond :
       string -> Resources.Coordinate -> Resources.Coordinate ->
       option string -> M Response)
    (id : string) (q : Resources.Query) (w : World) :
  truthy (Resources.q_lat q) = false \/ truthy (Resources.q_lon q) = false ->
  disasters w !! id = None \/
  (exists f fs, faults w = f :: fs /\ f <> NoFault) ->
  Resources.get geography_out search_and_respond id q w
  = (Normal (mkResponse 500 (error_body "Failed to fetch resources")),
     with_console (console w ++ ["Error fetching resources:"])
                  (with_faults (tail (faults w)) w)).
Proof.
  intros Hmissing Hfail.
  unfold Resources.get, Resources.disasters_select_location, Supabase.call,
    Supabase.next_fault, Supabase.single, throw_if_error, try_catch, bind, ret,
    throw, logger_error.
  assert (negb (truthy (Resources.q_lat q)) || negb (truthy (Resources.q_lon q))
          = true) as ->.
  { destruct Hmissing as [-> | ->]; simpl; [done|apply orb_true_r]. }
  destruct Hfail as [Hnone|(f & fs & Hf & Hne)].
  - destruct (faults w) as [|[| |] fs] eqn:Hf; simpl; rewrite ?Hnone; simpl.
    all: try done.
    all: unfold with_console, with_faults; simpl; rewrite ?Hf; by destruct w.
  - rewrite Hf. destruct f; [done| |]; simpl; done.
Qed.

End CentreExtras.

(** ** The priority of a report *)

Section PriorityExtras.

Import SocialMediaService.

Lemma toLowerCase_app a b :
  toLowerCase (a ++ b) = toLowerCase a ++ toLowerCase b.
Proof.
  induction a as [|c a IH]; [done|].
  change (String c a ++ b) with (String c (a ++ b)). simpl. by rewrite IH.
Qed.

Lemma prefix_app k a b :
  String.prefix k a = true -> String.prefix k (a ++ b) = true.
Proof.
  revert a. induction k as [|c k IH]; intros [|c' a]; try done.
  - intros _. by destruct b.
  - change (String c' a ++ b) with (String c' (a ++ b)). simpl.
    destruct (Ascii.ascii_dec c c'); [|done]. apply IH.
Qed.

Lemma includes_app_l a b k :
  includes a k = true -> includes (a ++ b) k = true.
Proof.
  induction a as [|c a IH].
  - simpl. rewrite orb_false_r. intros Hk.
    destruct k; [|done]. by destruct b.
  - change (String c a ++ b) with (String c (a ++ b)).
    change (includes (String c a) k)
      with (String.prefix k (String c a) || includes a k).
    change (includes (String c (a ++ b)) k)
      with (String.prefix k (String c (a ++ b)) || includes (a ++ b) k).
    intros [Hp|Hin]%orb_true_iff; apply orb_true_iff.
    + left. by apply (prefix_app k (String c a) b).
    + right. by apply IH.
Qed.

Lemma includes_app_r a b k :
  includes b k = true -> includes (a ++ b) k = true.
Proof.
  intros Hb. induction a as [|c a IH]; [done|].
  change (String c a ++ b) with (String c (a ++ b)).
  change (includes (String c (a ++ b)) k)
    with (String.prefix k (String c (a ++ b)) || includes (a ++ b) k).
  apply orb_true_iff. by right.
Qed.

Lemma some_includes_app before text after keywords :
  existsb (fun keyword => includes text keyword) keywords = true ->
  existsb (fun keyword => includes (before ++ text ++ after) keyword) keywords
  = true.
Proof.
  rewrite !existsb_exists. intros (k & Hk & Hin). exists k. split; [done|].
  by apply includes_app_r, includes_app_l.
Qed.

(** X19: more text never lowers the priority: a report extended at
    either end ranks at least as high as the report itself. *)
Theorem more_text_never_lowers_the_priority (before text after : string) :
  (rank (calculatePriority text)
   <= rank (calculatePriority (before ++ text ++ after)))%nat.
Proof.
  unfold calculatePriority. rewrite !toLowerCase_app.
  destruct (existsb _ urgentKeywords) eqn:Hu.
  - by rewrite (some_includes_app _ _ _ _ Hu).
  - destruct (existsb _ moderateKeywords) eqn:Hm.
    + rewrite (some_includes_app _ _ _ _ Hm).
      match goal with
      | |- context [if ?c then high else _] => destruct c
      end; simpl; lia.
    + apply Nat.le_0_l.
Qed.

End PriorityExtras.

(** ** The cache keys of the Gemini service *)

Section KeyExtras.

Lemma encode_app_3 a b c rest :
  Base64.encode (a :: b :: c :: rest)
  = (Base64.encode [a; b; c] ++ Base64.encode rest)%list.
Proof. done. Qed.

Lemma encode_app prefix rest n :
  length prefix = (3 * n)%nat ->
  Base64.encode (prefix ++ rest)
  = (Base64.encode prefix ++ Base64.encode rest)%list /\
  length (Base64.encode prefix) = (4 * n)%nat.
Proof.
  revert prefix. induction n as [|n IH]; intros prefix Hlen.
  - destruct prefix; [done|simpl in Hlen; lia].
  - destruct prefix as [|a [|b [|c prefix]]]; simpl in Hlen; try lia.
    destruct (IH prefix ltac:(lia)) as [Happ Hl].
    change ((a :: b :: c :: prefix) ++ rest)%list
      with (a :: b :: c :: (prefix ++ rest)%list).
    rewrite (encode_app_3 a b c (prefix ++ rest)), Happ.
    rewrite (encode_app_3 a b c prefix). split.
    + by rewrite <- app_assoc.
    + rewrite length_app, Hl. simpl. lia.
Qed.

Lemma list_ascii_of_string_app a b :
  list_ascii_of_string (a ++ b)
  = (list_ascii_of_string a ++ list_ascii_of_string b)%list.
Proof.
  induction a as [|c a IH]; [done|].
  change (String c a ++ b) with (String c (a ++ b)). simpl. by rewrite IH.
Qed.

Lemma string_app_assoc (a b c : string) : (a ++ b) ++ c = a ++ b ++ c.
Proof.
  induction a as [|x a IH]; [done|].
  change (String x a ++ b) with (String x (a ++ b)).
  change (String x (a ++ b) ++ c) with (String x ((a ++ b) ++ c)).
  change (String x a ++ b ++ c) with (String x (a ++ b ++ c)).
  by rewrite IH.
Qed.

Lemma length_list_ascii s : length (list_ascii_of_string s) = String.length s.
Proof. induction s as [|c s IH]; simpl; [done|]. by rewrite IH. Qed.

(** The digest reads no further than the first 39 bytes. *)
Lemma digest_of_prefix prefix rest :
  String.length prefix = 39%nat ->
  GeminiService.digest (prefix ++ rest)
  = string_of_list_ascii
      (take 50 (Base64.encode (list_ascii_of_string prefix))).
Proof.
  intros Hlen. unfold GeminiService.digest.
  rewrite list_ascii_of_string_app.
  destruct (encode_app (list_ascii_of_string prefix)
              (list_ascii_of_string rest) 13) as [-> Hl].
  { by rewrite length_list_ascii. }
  by rewrite take_app_le by lia.
Qed.

(** X20: the cache keys of the Gemini service read no further than the
    first 39 bytes of their text.  Two image URLs, or two
    descriptions, that agree on those bytes have the same key, so
    what was stored for one (a value that is not null, with an expiry
    the store reads) is served for the other. *)
Theorem texts_with_a_common_start_share_a_cache_entry
    (prefix rest1 rest2 : string) (v : Json) (ttl : Z) (w : World) :
  String.length prefix = 39%nat ->
  faults w = [] ->
  0 <= ttl ->
  v <> JNull ->
  Supabase.FIRST_TIMESTAMP <= now w + ttl * 60 * 1000 <= Supabase.LAST_TIMESTAMP ->
  GeminiService.image_cache_key (prefix ++ rest1)
  = GeminiService.image_cache_key (prefix ++ rest2) /\
  GeminiService.location_cache_key (prefix ++ rest1)
  = GeminiService.location_cache_key (prefix ++ rest2) /\
  (forall tags1 tags2,
      GeminiService.severity_cache_key (prefix ++ rest1) tags1
      = GeminiService.severity_cache_key (prefix ++ rest2) tags2) /\
  result
    (CacheService.get (GeminiService.image_cache_key (prefix ++ rest2))
       (world_after
          (CacheService.set (GeminiService.image_cache_key (prefix ++ rest1))
             v (Some ttl) w)))
  = Normal v.
Proof.
  intros Hlen Hf Httl Hv Hreads.
  assert (Hd : forall r1 r2,
             GeminiService.digest (prefix ++ r1)
             = GeminiService.digest (prefix ++ r2)).
  { intros r1 r2. by rewrite !digest_of_prefix. }
  assert (Himg : GeminiService.image_cache_key (prefix ++ rest1)
                 = GeminiService.image_cache_key (prefix ++ rest2)).
  { unfold GeminiService.image_cache_key. by rewrite (Hd rest1 rest2). }
  split; [done|]. split.
  { unfold GeminiService.location_cache_key. by rewrite (Hd rest1 rest2). }
  split.
  { intros tags1 tags2. unfold GeminiService.severity_cache_key.
    rewrite !string_app_assoc.
    by rewrite (Hd (rest1 ++ String.concat "" tags1)
                   (rest2 ++ String.concat "" tags2)). }
  rewrite Himg, set_answered by done.
  rewrite get_answered by done. simpl. rewrite lookup_insert_eq. simpl.
  by destruct (Z.ltb_spec (now w + ttl * 60 * 1000) (now w)); [lia|].
Qed.

End KeyExtras.

(** ** Official updates through the cache *)

Section OfficialUpdatesExtras.

Variable toUpperCase : string -> string.
Variable error_message : JsError -> string.

Lemma scrape_answered ty loc w :
  0 <= now w <= MAX_TIME ->
  OfficialUpdatesService.scrapeOfficialSources toUpperCase ty loc w
  = (Normal (OfficialUpdatesService.mockUpdates toUpperCase ty loc
               (now w - 2 * 60 * 60 * 1000) (now w - 4 * 60 * 60 * 1000)
               (now w - 6 * 60 * 60 * 1000)), w).
Proof.
  intros Ht. unfold OfficialUpdatesService.scrapeOfficialSources,
    try_catch, bind, clock, toISOString, ret, MAX_TIME in *.
  destruct (Z.leb_spec (Z.abs (now w - 2 * 60 * 60 * 1000)) 8640000000000000); [|lia].
  destruct (Z.leb_spec (Z.abs (now w - 4 * 60 * 60 * 1000)) 8640000000000000); [|lia].
  destruct (Z.leb_spec (Z.abs (now w - 6 * 60 * 60 * 1000)) 8640000000000000); [|lia].
  done.
Qed.

(** A fetch that finds nothing in the cache goes to the sources and
    stores what it got for thirty minutes. *)
Lemma fetch_miss ty loc w :
  faults w = [] ->
  0 <= now w -> now w + 30 * 60 * 1000 <= Supabase.LAST_TIMESTAMP ->
  cache w !! OfficialUpdatesService.cacheKey ty loc = None ->
  OfficialUpdatesService.fetchOfficialUpdates toUpperCase error_message ty loc w
  = (Normal (OfficialUpdatesService.fresh toUpperCase ty loc (now w)),
     with_console (console w ++ ["Official updates fetched"])
       (with_cache (<[OfficialUpdatesService.cacheKey ty loc := mkCacheRow (OfficialUpdatesService.fresh toUpperCase ty loc (now w))
                                      (now w + 30 * 60 * 1000)]> (cache w)) w)).
Proof.
  intros Hf H0 Hmax Hnone.
  unfold OfficialUpdatesService.fetchOfficialUpdates, try_catch, bind.
  unfold Supabase.LAST_TIMESTAMP in Hmax.
  rewrite get_answered, Hnone by done. simpl.
  rewrite scrape_answered by (unfold MAX_TIME; lia).
  unfold clock, toISOString.
  destruct (Z.leb_spec (Z.abs (now w)) MAX_TIME); [|unfold MAX_TIME in *; lia].
  unfold ret.
  rewrite set_answered
    by first [done | simpl; unfold Supabase.FIRST_TIMESTAMP,
                              Supabase.LAST_TIMESTAMP; lia].
  done.
Qed.

(** A fetch that finds an entry that has not expired returns it and
    does nothing else. *)
Lemma fetch_hit ty loc w row :
  faults w = [] ->
  cache w !! OfficialUpdatesService.cacheKey ty loc = Some row ->
  now w <= expires_at row ->
  js_truthy (value row) = true ->
  OfficialUpdatesService.fetchOfficialUpdates toUpperCase error_message ty loc w = (Normal (value row), w).
Proof.
  intros Hf Hrow Hle Htruthy.
  unfold OfficialUpdatesService.fetchOfficialUpdates, try_catch, bind.
  rewrite get_answered, Hrow by done.
  destruct (Z.ltb_spec (expires_at row) (now w)); [lia|].
  by rewrite Htruthy.
Qed.


(** With the store answering, [set] returns with the clock and the
    pending answers as they were, and the table as it was or with
    the new row. *)
Lemma set_outcome key v ttl w :
  faults w = [] ->
  exists w',
    CacheService.set key v ttl w = (Normal tt, w') /\
    faults w' = [] /\ now w' = now w /\
    (cache w' = cache w \/
     cache w' = <[key := mkCacheRow v (now w + default 60 ttl * 60 * 1000)]>
                  (cache w)).
Proof.
  intros Hf.
  unfold CacheService.set, Supabase.cache_upsert, Supabase.call,
    Supabase.next_fault, toISOString, throw_if_error, try_catch, bind, ret,
    throw, clock, logger_error, logger_debug.
  simpl. destruct (Z.abs _ <=? MAX_TIME); simpl; rewrite ?Hf; simpl.
  all: repeat (case_match; unfold ret in *; simpl in *; simplify_eq/=).
  all: eexists; split; [reflexivity|]; simpl; rewrite ?Hf.
  all: split; [done|]; split; [done|]; by (left + right).
Qed.

(** A fetch that finds nothing usable in the cache answers with
    fresh updates, whether or not the table takes the new entry. *)
Lemma fetch_fresh ty loc w :
  faults w = [] ->
  0 <= now w <= MAX_TIME ->
  (forall row, cache w !! OfficialUpdatesService.cacheKey ty loc = Some row ->
               expires_at row < now w) ->
  result (OfficialUpdatesService.fetchOfficialUpdates toUpperCase error_message
            ty loc w)
  = Normal (OfficialUpdatesService.fresh toUpperCase ty loc (now w)).
Proof.
  intros Hf Ht Hstale.
  unfold OfficialUpdatesService.fetchOfficialUpdates, try_catch, bind, result.
  rewrite get_answered by done.
  destruct (cache w !! OfficialUpdatesService.cacheKey ty loc) as [row|] eqn:Hrow.
  - destruct (Z.ltb_spec (expires_at row) (now w)) as [_|Hge];
      [|specialize (Hstale row eq_refl); lia].
    simpl. rewrite scrape_answered by done.
    unfold clock, toISOString. simpl.
    destruct (Z.leb_spec (Z.abs (now w)) MAX_TIME); [|lia].
    unfold ret.
    destruct (set_outcome (OfficialUpdatesService.cacheKey ty loc)
                (OfficialUpdatesService.updatesData
                   (OfficialUpdatesService.mockUpdates toUpperCase ty loc
                      (now w - 2 * 60 * 60 * 1000) (now w - 4 * 60 * 60 * 1000)
                      (now w - 6 * 60 * 60 * 1000)) ty loc (now w))
                (Some 30)
                (with_cache (delete (OfficialUpdatesService.cacheKey ty loc) (cache w)) w))
      as (w' & -> & _); [done|]. done.
  - simpl. rewrite scrape_answered by done.
    unfold clock, toISOString.
    destruct (Z.leb_spec (Z.abs (now w)) MAX_TIME); [|lia].
    unfold ret.
    destruct (set_outcome (OfficialUpdatesService.cacheKey ty loc)
                (OfficialUpdatesService.updatesData
                   (OfficialUpdatesService.mockUpdates toUpperCase ty loc
                      (now w - 2 * 60 * 60 * 1000) (now w - 4 * 60 * 60 * 1000)
                      (now w - 6 * 60 * 60 * 1000)) ty loc (now w))
                (Some 30) w)
      as (w' & -> & _); [done|]. done.
Qed.

(** What the first fetch leaves: no pending answer, and under the key
    nothing or the fresh entry. *)
Lemma fetch_miss_world ty loc w :
  faults w = [] ->
  0 <= now w <= MAX_TIME ->
  cache w !! OfficialUpdatesService.cacheKey ty loc = None ->
  let w' := world_after (OfficialUpdatesService.fetchOfficialUpdates toUpperCase
                           error_message ty loc w) in
  faults w' = [] /\
  (cache w' !! OfficialUpdatesService.cacheKey ty loc = None \/
   cache w' !! OfficialUpdatesService.cacheKey ty loc
   = Some (mkCacheRow (OfficialUpdatesService.fresh toUpperCase ty loc (now w))
                      (now w + 30 * 60 * 1000))).
Proof.
  intros Hf Ht Hnone w'. unfold w'.
  unfold OfficialUpdatesService.fetchOfficialUpdates, try_catch, bind, world_after.
  rewrite get_answered, Hnone by done. simpl.
  rewrite scrape_answered by done.
  unfold clock, toISOString.
  destruct (Z.leb_spec (Z.abs (now w)) MAX_TIME); [|lia].
  unfold ret.
  destruct (set_outcome (OfficialUpdatesService.cacheKey ty loc)
              (OfficialUpdatesService.updatesData
                 (OfficialUpdatesService.mockUpdates toUpperCase ty loc
                    (now w - 2 * 60 * 60 * 1000) (now w - 4 * 60 * 60 * 1000)
                    (now w - 6 * 60 * 60 * 1000)) ty loc (now w))
              (Some 30) w)
    as (w1 & -> & Hf1 & _ & Hcache); [done|].
  unfold logger_info. simpl. split; [done|].
  destruct Hcache as [-> | ->]; [by left|right].
  simpl. by rewrite lookup_insert_eq.
Qed.

(** X21: official updates are served from the cache for thirty minutes.
    After a fetch at [t0] that found nothing cached, a fetch for the
    same type and location at any instant up to [t0] plus thirty
    minutes returns the very same answer, instant of fetching
    included, and writes nothing (the entry being one the store
    takes: an expiry up to the year 9999); any later fetch goes to
    the sources again. *)
Theorem official_updates_are_cached_for_thirty_minutes
    (ty loc : string) (t0 t : Z) (w : World) :
  faults w = [] ->
  cache w !! OfficialUpdatesService.cacheKey ty loc = None ->
  0 <= t0 -> t0 <= t -> t + 30 * 60 * 1000 <= MAX_TIME ->
  let first := OfficialUpdatesService.fetchOfficialUpdates toUpperCase error_message ty loc (at_time t0 w) in
  let second := OfficialUpdatesService.fetchOfficialUpdates toUpperCase error_message ty loc (at_time t (world_after first)) in
  result first = Normal (OfficialUpdatesService.fresh toUpperCase ty loc t0) /\
  (t <= t0 + 30 * 60 * 1000 ->
   t0 + 30 * 60 * 1000 <= Supabase.LAST_TIMESTAMP ->
   result second = Normal (OfficialUpdatesService.fresh toUpperCase ty loc t0) /\
   cache (world_after second) = cache (world_after first)) /\
  (t0 + 30 * 60 * 1000 < t ->
   result second = Normal (OfficialUpdatesService.fresh toUpperCase ty loc t)).
Proof.
  intros Hf Hnone H0 Hle Hmax first second.
  split; [|split].
  - unfold first. rewrite fetch_fresh; simpl; try done; [lia|].
    intros row. by rewrite Hnone.
  - intros Hin Hreads.
    assert (Hfirst : first
                     = (Normal (OfficialUpdatesService.fresh toUpperCase ty loc t0),
                        with_console (console w ++ ["Official updates fetched"])
                          (with_cache
                             (<[OfficialUpdatesService.cacheKey ty loc := mkCacheRow (OfficialUpdatesService.fresh toUpperCase ty loc t0)
                                                (t0 + 30 * 60 * 1000)]> (cache w))
                             (at_time t0 w)))).
    { unfold first. rewrite fetch_miss; simpl; try done; lia. }
    unfold second. rewrite Hfirst. simpl.
    rewrite (fetch_hit ty loc _ (mkCacheRow (OfficialUpdatesService.fresh toUpperCase ty loc t0) (t0 + 30 * 60 * 1000)));
      simpl; try done.
    apply lookup_insert_eq.
  - intros Hout.
    destruct (fetch_miss_world ty loc (at_time t0 w)) as [Hf1 Hcache];
      [done|simpl; lia|done|].
    fold first in Hf1, Hcache. unfold second.
    rewrite fetch_fresh; simpl; try done; [lia|].
    intros row Hrow. destruct Hcache as [Hc|Hc]; rewrite Hc in Hrow; [done|].
    simplify_eq. simpl. lia.
Qed.


Lemma get_keeps_clock k w : now (world_after (CacheService.get k w)) = now w.
Proof.
  unfold CacheService.get, CacheService.delete, Supabase.cache_select_single,
    Supabase.cache_delete_eq, Supabase.call, Supabase.next_fault,
    Supabase.single, throw_if_error, try_catch, bind, ret, throw, clock,
    logger_error, world_after.
  repeat (case_match; simpl in *; simplify_eq/=); done.
Qed.

(** X22: the service never fails for want of the cache.  Whatever the
    store answers it returns normally, and when the read of the cache
    fails it answers with fresh updates as if nothing were cached. *)
Theorem official_updates_survive_a_failing_store (ty loc : string) (w : World) :
  (exists j, result (OfficialUpdatesService.fetchOfficialUpdates toUpperCase error_message ty loc w) = Normal j) /\
  (forall f fs,
      faults w = f :: fs -> f <> NoFault ->
      0 <= now w -> now w <= MAX_TIME ->
      result (OfficialUpdatesService.fetchOfficialUpdates toUpperCase error_message ty loc w) = Normal (OfficialUpdatesService.fresh toUpperCase ty loc (now w))).
Proof.
  split.
  - unfold OfficialUpdatesService.fetchOfficialUpdates, try_catch, bind, result.
    destruct (CacheService.get (OfficialUpdatesService.cacheKey ty loc) w) as [[cached|e] w1]; simpl;
      [|by eauto].
    destruct (js_truthy cached); simpl; [by eauto|].
    destruct (OfficialUpdatesService.scrapeOfficialSources toUpperCase ty loc w1)
      as [[updates|e] w2]; simpl; [|by eauto].
    unfold clock, toISOString.
    destruct (Z.abs (now w2) <=? MAX_TIME); simpl; [|by eauto].
    unfold ret.
    destruct (CacheService.set _ _ _ w2) as [[[]|e] w3]; simpl; by eauto.
  - intros f fs Hf Hne H0 Hmax.
    assert (Hget : exists w1, CacheService.get (OfficialUpdatesService.cacheKey ty loc) w = (Normal JNull, w1) /\
                              now w1 = now w).
    { pose proof (get_keeps_clock (OfficialUpdatesService.cacheKey ty loc) w) as Hclock.
      unfold CacheService.get, Supabase.cache_select_single, Supabase.call,
        Supabase.next_fault, try_catch, bind, ret, throw, logger_error,
        world_after in *.
      rewrite Hf in *. destruct f; [done| |]; simpl in *.
      - destruct (negb (String.eqb code "PGRST116")); simpl in *; eauto.
      - eauto. }
    destruct Hget as (w1 & Hget & Hnow).
    unfold OfficialUpdatesService.fetchOfficialUpdates, try_catch, bind, result.
    rewrite Hget. simpl.
    rewrite scrape_answered by lia.
    unfold clock, toISOString. rewrite Hnow.
    destruct (Z.leb_spec (Z.abs (now w)) MAX_TIME); [|unfold MAX_TIME in *; lia].
    unfold ret.
    pose proof (set_returns (OfficialUpdatesService.cacheKey ty loc) (OfficialUpdatesService.fresh toUpperCase ty loc (now w)) (Some 30) w1)
      as Hset.
    unfold result in Hset.
    unfold OfficialUpdatesService.fresh in *.
    destruct (CacheService.set _ _ _ w1) as [c w2]; simpl in *. by subst c.
Qed.

(** X23: the cache key runs the type and the location together with an
    underscore, so two different pairs that read the same once joined
    share one entry: within thirty minutes of a fetch for the first
    pair, a fetch for the second is answered with the updates of the
    first. *)
Theorem official_updates_keys_run_together
    (ty1 loc1 ty2 loc2 : string) (t0 t : Z) (w : World) :
  ty1 ++ "_" ++ loc1 = ty2 ++ "_" ++ loc2 ->
  faults w = [] ->
  cache w !! OfficialUpdatesService.cacheKey ty1 loc1 = None ->
  0 <= t0 -> t0 <= t -> t <= t0 + 30 * 60 * 1000 ->
  t0 + 30 * 60 * 1000 <= Supabase.LAST_TIMESTAMP ->
  result (OfficialUpdatesService.fetchOfficialUpdates toUpperCase error_message ty2 loc2 (at_time t (world_after (OfficialUpdatesService.fetchOfficialUpdates toUpperCase error_message ty1 loc1 (at_time t0 w)))))
  = Normal (OfficialUpdatesService.fresh toUpperCase ty1 loc1 t0).
Proof.
  intros Hjoin Hf Hnone H0 Hle Hin Hmax.
  assert (Hkey : OfficialUpdatesService.cacheKey ty2 loc2 = OfficialUpdatesService.cacheKey ty1 loc1).
  { unfold OfficialUpdatesService.cacheKey. by rewrite Hjoin. }
  rewrite (fetch_miss ty1 loc1 (at_time t0 w)) by first [done | simpl; lia].
  unfold world_after. cbn [snd].
  rewrite (fetch_hit ty2 loc2 _ (mkCacheRow (OfficialUpdatesService.fresh toUpperCase ty1 loc1 t0) (t0 + 30 * 60 * 1000)));
    simpl; try done.
  rewrite Hkey. apply lookup_insert_eq.
Qed.

End OfficialUpdatesExtras.

(** ** The properties above at sample inputs *)

Lemma delete_removes_only_its_key_witness :
  cache (world_after (CacheService.delete "k" (Samples.one_entry 0))) !! "k" = None.
Proof.
  apply (delete_removes_only_its_key "k" (Samples.one_entry 0)). reflexivity.
Defined.

Lemma sweep_removes_exactly_the_expired_witness :
  result (CacheService.cleanExpiredCache (Samples.one_entry 2000)) = Normal tt.
Proof.
  apply (sweep_removes_exactly_the_expired (Samples.one_entry 2000)).
  - reflexivity.
  - vm_compute. discriminate.
Defined.

Lemma get_evicts_at_most_its_own_expired_entry_witness :
  cache (world_after (CacheService.get "k" (Samples.one_entry 2000))) !! "other"
  = cache (Samples.one_entry 2000) !! "other".
Proof.
  apply (proj1 (get_evicts_at_most_its_own_expired_entry "k"
                  (Samples.one_entry 2000)) "other").
  discriminate.
Defined.

Lemma set_is_all_or_nothing_witness :
  cache (world_after
           (CacheService.set "k" JNull None
              (with_faults [Rejected] (Samples.one_entry 0))))
  = cache (with_faults [Rejected] (Samples.one_entry 0)) /\
  cache (world_after (CacheService.set "k" JNull None (Samples.one_entry 0)))
  = cache (Samples.one_entry 0).
Proof.
  split.
  - apply (proj1 (proj2 (proj2 (proj2
             (set_is_all_or_nothing "k" JNull None
                (with_faults [Rejected] (Samples.one_entry 0)))))) Rejected []).
    + reflexivity.
    + discriminate.
  - apply (proj2 (proj2 (proj2 (proj2
             (set_is_all_or_nothing "k" JNull None (Samples.one_entry 0)))))).
    left. reflexivity.
Defined.

Lemma get_right_after_set_witness :
  CacheService.get "k"
    (world_after (CacheService.set "k" (JStr "v") (Some 5) (Samples.quiet 0)))
  = (Normal (JStr "v"),
     world_after (CacheService.set "k" (JStr "v") (Some 5) (Samples.quiet 0))).
Proof.
  apply (get_right_after_set "k" (JStr "v") 5 (Samples.quiet 0)).
  - reflexivity.
  - discriminate.
  - vm_compute. split; discriminate.
  - lia.
Defined.

Lemma put_answers_200_or_500_witness :
  result (Disasters.put "nowhere" Samples.flood_worse (Samples.quiet 0))
  = Normal (mkResponse 500 (error_body "Failed to update disaster")) /\
  Disasters.succeeded
    (result (Disasters.put "id-0" Samples.flood_worse Cases.reported)) = true.
Proof.
  destruct (put_answers_200_or_500 "nowhere" Samples.flood_worse
              (Samples.quiet 0)) as (_ & Hmissing & _).
  destruct (put_answers_200_or_500 "id-0" Samples.flood_worse Cases.reported)
    as (_ & _ & Hupdated).
  split.
  - apply Hmissing. reflexivity.
  - apply (Hupdated Samples.flood_record);
      [vm_compute; reflexivity|reflexivity|vm_compute; discriminate].
Defined.

Lemma put_keeps_what_the_body_leaves_out_witness :
  exists new,
    disasters (world_after (Disasters.put "id-0" Samples.flood_worse Cases.reported))
      !! "id-0" = Some new /\
    d_id new = "id-0" /\ owner_id new = "netrunnerX".
Proof.
  destruct (disasters
              (world_after (Disasters.put "id-0" Samples.flood_worse Cases.reported))
              !! "id-0") as [new|] eqn:Hnew.
  - exists new. split; [reflexivity|].
    destruct (put_keeps_what_the_body_leaves_out "id-0" Samples.flood_worse
                Cases.reported Samples.flood_record new) as (Hid & Hown & _).
    + vm_compute. reflexivity.
    + vm_compute. reflexivity.
    + exact Hnew.
    + split; [exact Hid|exact Hown].
  - vm_compute in Hnew. discriminate.
Defined.

Lemma post_requires_title_and_description_witness :
  Disasters.post (Disasters.mkBody (Some "") None (Some "River overflow") None None None)
                 (Samples.quiet 0)
  = (Normal (mkResponse 400 (error_body "Title and description are required")),
     Samples.quiet 0) /\
  exists resp,
    result (Disasters.post Samples.flood (Samples.quiet 0)) = Normal resp /\
    status resp = 201.
Proof.
  split.
  - apply post_requires_title_and_description. left. reflexivity.
  - destruct (proj2 (post_requires_title_and_description Samples.flood
                       (Samples.quiet 0)))
      as (resp & Hres & _ & _ & Hcreated); [reflexivity|reflexivity|].
    exists resp. split; [exact Hres|].
    apply Hcreated; [reflexivity|vm_compute; discriminate|reflexivity].
Defined.

Lemma handlers_leave_other_records_alone_witness :
  disasters (world_after (Disasters.put "id-7" Samples.flood_worse Cases.reported))
    !! "id-0" = disasters Cases.reported !! "id-0".
Proof.
  apply (proj2 (handlers_leave_other_records_alone "id-7" Samples.flood_worse
                  Cases.reported) "id-0").
  discriminate.
Defined.

Lemma served_in_turn_the_trail_only_grows_witness :
  exists d' added,
    disasters
      (snd (Disasters.put_each
              [("id-0", Samples.flood_worse); ("id-0", Samples.flood_tagged)]
              Cases.reported)) !! "id-0" = Some d' /\
    audit_trail d' = (audit_trail Samples.flood_record ++ added)%list /\
    Forall (fun e => action e = update) added.
Proof.
  apply (served_in_turn_the_trail_only_grows "id-0"
           [("id-0", Samples.flood_worse); ("id-0", Samples.flood_tagged)]
           Cases.reported Samples.flood_record).
  vm_compute. reflexivity.
Defined.

Lemma every_schedule_keeps_the_first_entry_witness :
  exists d' rest',
    disasters
      (snd (Disasters.run [0; 1; 0; 1]%nat
              (map (fun r => Disasters.put_received (fst r) (snd r))
                   [("id-0", Samples.flood_worse); ("id-0", Samples.flood_tagged)])
              Cases.reported)) !! "id-0" = Some d' /\
    audit_trail d'
    = mkAuditEntry create "netrunnerX" 0
        (mkChanges (Some "Flood") (Some "Riverside") (Some "River overflow")
                   (Some ["flood"]))
        (Some (JStr "Severity: 5/10")) :: rest' /\
    (length (audit_trail d')
     <= length (audit_trail Samples.flood_record)
        + Schedules.completed
            (fst (Disasters.run [0; 1; 0; 1]%nat
                    (map (fun r => Disasters.put_received (fst r) (snd r))
                         [("id-0", Samples.flood_worse);
                          ("id-0", Samples.flood_tagged)])
                    Cases.reported)))%nat.
Proof.
  apply (every_schedule_keeps_the_first_entry [0; 1; 0; 1]%nat
           [("id-0", Samples.flood_worse); ("id-0", Samples.flood_tagged)]
           Cases.reported "id-0" Samples.flood_record _ []).
  - vm_compute. reflexivity.
  - reflexivity.
Defined.

Lemma which_centre_the_search_uses_witness :
  Resources.get Cases.ewkb
    (fun _ _ _ _ => ret (mkResponse 200 (resources_body [])))
    "nowhere" (Resources.mkQuery (Some "12.5") (Some "41.9") None)
    (Samples.quiet 0)
  = (Normal (mkResponse 200 (resources_body [])), Samples.quiet 0) /\
  Resources.get Cases.ewkb
    (fun _ la lo _ =>
       match la, lo with
       | Resources.from_query None, Resources.from_query (Some "41.9") =>
           ret (mkResponse 200 (resources_body []))
       | _, _ => throw FetchFailed
       end)
    "id-0" (Resources.mkQuery None (Some "41.9") None) Cases.placed
  = (Normal (mkResponse 200 (resources_body [])), Cases.placed) /\
  Resources.get (fun _ => "POINT(1 0)")
    (fun _ la lo _ =>
       match la, lo with
       | Resources.from_disaster "0", Resources.from_disaster "1" =>
           ret (mkResponse 200 (resources_body []))
       | _, _ => throw FetchFailed
       end)
    "id-0" (Resources.mkQuery None (Some "41.9") None) Cases.placed
  = (Normal (mkResponse 200 (resources_body [])), Cases.placed).
Proof.
  split; [|split].
  - apply (proj1 (which_centre_the_search_uses Cases.ewkb
                    (fun _ _ _ _ => ret (mkResponse 200 (resources_body [])))
                    "nowhere" None (Samples.quiet 0) (Samples.quiet 0)
                    (mkResponse 200 (resources_body []))) "12.5" "41.9").
    + discriminate.
    + discriminate.
    + reflexivity.
  - apply (proj1 (proj2 (which_centre_the_search_uses Cases.ewkb _
                           "id-0" None Cases.placed Cases.placed
                           (mkResponse 200 (resources_body []))))
                 (Resources.mkQuery None (Some "41.9") None)
                 Cases.placed_record (mkPoint 1 0)).
    + left. reflexivity.
    + reflexivity.
    + reflexivity.
    + vm_compute. reflexivity.
    + reflexivity.
    + discriminate.
    + reflexivity.
    + reflexivity.
  - apply (proj2 (proj2 (which_centre_the_search_uses (fun _ => "POINT(1 0)") _
                           "id-0" None Cases.placed Cases.placed
                           (mkResponse 200 (resources_body []))))
                 (Resources.mkQuery None (Some "41.9") None)
                 Cases.placed_record (mkPoint 1 0) "1" "0").
    + left. reflexivity.
    + reflexivity.
    + reflexivity.
    + vm_compute. reflexivity.
    + reflexivity.
    + reflexivity.
    + discriminate.
    + discriminate.
    + reflexivity.
    + reflexivity.
    + reflexivity.
Defined.

Lemma unknown_disaster_is_a_server_error_witness :
  result (Resources.get Cases.ewkb
            (fun _ _ _ _ => ret (mkResponse 200 (resources_body [])))
            "nowhere" (Resources.mkQuery None None None) (Samples.quiet 0))
  = Normal (mkResponse 500 (error_body "Failed to fetch resources")).
Proof.
  rewrite (unknown_disaster_is_a_server_error Cases.ewkb
             (fun _ _ _ _ => ret (mkResponse 200 (resources_body [])))
             "nowhere" (Resources.mkQuery None None None) (Samples.quiet 0)).
  - reflexivity.
  - left. reflexivity.
  - left. reflexivity.
Defined.

Lemma texts_with_a_common_start_share_a_cache_entry_witness :
  GeminiService.image_cache_key (Cases.host ++ "/roof.jpg")
  = GeminiService.image_cache_key (Cases.host ++ "/bridge.jpg").
Proof.
  apply (texts_with_a_common_start_share_a_cache_entry Cases.host "/roof.jpg"
           "/bridge.jpg" (JObj [("verification_score", JNum 85)]) 120
           (Samples.quiet 0)).
  - reflexivity.
  - reflexivity.
  - lia.
  - discriminate.
  - vm_compute. split; discriminate.
Defined.

Lemma official_updates_are_cached_for_thirty_minutes_witness :
  result
    (OfficialUpdatesService.fetchOfficialUpdates Cases.as_written
       Cases.some_message "flood" "Riverside"
       (at_time 60000
          (world_after
             (OfficialUpdatesService.fetchOfficialUpdates Cases.as_written
                Cases.some_message "flood" "Riverside"
                (at_time 0 (Samples.quiet 0))))))
  = Normal (OfficialUpdatesService.fresh Cases.as_written "flood" "Riverside" 0).
Proof.
  destruct (official_updates_are_cached_for_thirty_minutes Cases.as_written
              Cases.some_message "flood" "Riverside" 0 60000 (Samples.quiet 0))
    as (_ & Hhit & _).
  - reflexivity.
  - reflexivity.
  - lia.
  - lia.
  - vm_compute. discriminate.
  - apply Hhit; [lia|vm_compute; discriminate].
Defined.

Lemma official_updates_survive_a_failing_store_witness :
  result
    (OfficialUpdatesService.fetchOfficialUpdates Cases.as_written
       Cases.some_message "flood" "Riverside"
       (with_faults [Rejected; Rejected] (Samples.quiet 0)))
  = Normal (OfficialUpdatesService.fresh Cases.as_written "flood" "Riverside" 0).
Proof.
  apply (proj2 (official_updates_survive_a_failing_store Cases.as_written
                  Cases.some_message "flood" "Riverside"
                  (with_faults [Rejected; Rejected] (Samples.quiet 0)))
               Rejected [Rejected]).
  - reflexivity.
  - discriminate.
  - simpl. lia.
  - vm_compute. discriminate.
Defined.

Lemma official_updates_keys_run_together_witness :
  result
    (OfficialUpdatesService.fetchOfficialUpdates Cases.as_written
       Cases.some_message "flood" "plain_north"
       (at_time 60000
          (world_after
             (OfficialUpdatesService.fetchOfficialUpdates Cases.as_written
                Cases.some_message "flood_plain" "north"
                (at_time 0 (Samples.quiet 0))))))
  = Normal (OfficialUpdatesService.fresh Cases.as_written "flood_plain" "north" 0).
Proof.
  apply (official_updates_keys_run_together Cases.as_written Cases.some_message
           "flood_plain" "north" "flood" "plain_north" 0 60000 (Samples.quiet 0)).
  - reflexivity.
  - reflexivity.
  - reflexivity.
  - lia.
  - lia.
  - lia.
  - vm_compute. discriminate.
Defined.

Lemma read_returns_what_was_written_witness :
  result (DisasterRead.get "id-0" Cases.reported)
  = Normal (DisasterRead.mkResponse 200
              (DisasterRead.disaster_body (Some Samples.flood_record))).
Proof.
  apply (proj1 (read_returns_what_was_written Samples.flood (Samples.quiet 0)
                  eq_refl)
               (mkResponse 201
                  (disaster_body (Some Samples.flood_record)
                                 (Some (JStr "Severity: 5/10"))))
               Samples.flood_record (Some (JStr "Severity: 5/10"))).
  - vm_compute. reflexivity.
  - reflexivity.
  - reflexivity.
Defined.

Lemma read_answers_200_or_500_witness :
  result (DisasterRead.get "nowhere" (Samples.quiet 0))
  = Normal (DisasterRead.mkResponse 500
              (DisasterRead.error_body "Failed to retrieve disaster")).
Proof.
  apply (proj1 (proj2 (read_answers_200_or_500 "nowhere" (Samples.quiet 0)))).
  reflexivity.
Defined.

Lemma zero_coordinate_is_no_coordinate_witness :
  (exists new,
      disasters
        (world_after (Disasters.put "id-0" (Cases.body_at 0 5) Cases.placed))
        !! "id-0" = Some new /\
      location new = Some (mkPoint 1 0)) /\
  (exists new,
      disasters
        (world_after (Disasters.put "id-0" (Cases.body_at 2 3) Cases.placed))
        !! "id-0" = Some new /\
      location new = Some (mkPoint 3 2)).
Proof.
  split.
  - destruct (disasters
                (world_after (Disasters.put "id-0" (Cases.body_at 0 5) Cases.placed))
                !! "id-0") as [new|] eqn:Hnew.
    + exists new. split; [reflexivity|].
      apply (proj2 (proj1 (zero_coordinate_is_no_coordinate (Cases.body_at 0 5)
                             Cases.placed)
                          (or_introl eq_refl))
                   "id-0" Cases.placed_record new).
      * vm_compute. reflexivity.
      * vm_compute. reflexivity.
      * exact Hnew.
    + vm_compute in Hnew. discriminate.
  - destruct (disasters
                (world_after (Disasters.put "id-0" (Cases.body_at 2 3) Cases.placed))
                !! "id-0") as [new|] eqn:Hnew.
    + exists new. split; [reflexivity|].
      apply (proj2 (proj2 (zero_coordinate_is_no_coordinate (Cases.body_at 2 3)
                             Cases.placed)
                          2%R 3%R eq_refl eq_refl ltac:(lra) ltac:(lra))
                   "id-0" Cases.placed_record new).
      * vm_compute. reflexivity.
      * vm_compute. reflexivity.
      * exact Hnew.
    + vm_compute in Hnew. discriminate.
Defined.


Lemma first_row_is_nearest_witness :
  (distance_meters (mkNearbyRow (Samples.depot "a" 1 0) 1)
   <= PostGIS.ST_Distance (mkPoint 1 0) (mkPoint 0 0))%R.
Proof.
  apply (first_row_is_nearest 0 0 10 [Samples.depot "a" 1 0]
           (mkNearbyRow (Samples.depot "a" 1 0) 1) [] (Samples.depot "a" 1 0)
           (mkPoint 1 0)).
  - rewrite find_single_depot; rewrite planar_one_degree; [reflexivity|lra].
  - left. reflexivity.
  - reflexivity.
  - reflexivity.
  - rewrite planar_one_degree. lra.
Defined.

Lemma distinct_distances_fix_the_order_witness :
  Geo.find_nearby_resources 0 0 10 [Samples.depot "a" 1 0; Samples.depot "b" 0 0]
  = Geo.find_nearby_resources 0 0 10 [Samples.depot "b" 0 0; Samples.depot "a" 1 0].
Proof.
  apply (distinct_distances_fix_the_order 0 0 10
           [Samples.depot "a" 1 0; Samples.depot "b" 0 0]
           [Samples.depot "b" 0 0; Samples.depot "a" 1 0]).
  - apply perm_swap.
  - simpl.
    rewrite (proj2 (select_row_spec 0 0 10 (Samples.depot "a" 1 0)
                      (mkNearbyRow (Samples.depot "a" 1 0) 1))).
    + rewrite (proj2 (select_row_spec 0 0 10 (Samples.depot "b" 0 0)
                        (mkNearbyRow (Samples.depot "b" 0 0) 0))).
      * simpl. apply NoDup_cons. split.
        -- intros Hin. apply list_elem_of_singleton in Hin. lra.
        -- apply NoDup_singleton.
      * exists (mkPoint 0 0). rewrite planar_same_point.
        repeat split. lra.
    + exists (mkPoint 1 0). rewrite planar_one_degree. repeat split. lra.
Defined.

